(** * Pure-pursuit curvature laws, follower state and home-position update

    A shallow embedding of the parts of the waypoint-following engine that
    carry its numerical contracts:

    - [TruckState::getCurvatureToPointInVehicleFrame] and
      [TruckState::getCurvatureWithTrailer]  (vehicles/truckstate.cpp),
    - the default member initialisers of [WayPointFollowerState] and of
      [PurepursuitWaypointFollower]  (autopilot/purepursuitwaypointfollower.h),
    - [MavsdkVehicleConnection::setHomeLlh], the home callback,
      [requestGotoLlh], [requestGotoENU], [sendSetGpsOriginLlh],
      [convertPosPointToMissionItem], [appendToRouteOnVehicle] and
      [inputRtcmData]
      (communication/vehicleconnections/mavsdkvehicleconnection.cpp),
    - [VESCMotorController::requestRPM] and the timer slots of the
      controller  (vehicles/controller/vescmotorcontroller.cpp).

    Numbers of C++ type [double] are read as real numbers: the arithmetic of
    the embedding is exact, and rounding, overflow and NaN are outside the
    model.  Where a product of doubles is turned into an integer
    ([requestGotoLlh], [sendSetGpsOriginLlh]) the product is the computed
    one.  [unsigned] and [int] members are integers in [Z]. *)

From Stdlib Require Import Reals Lra ZArith Lia Bool List.
From Stdlib Require Strings.Byte.
Import ListNotations.

Local Open Scope R_scope.

(** ** The C math library *)

Module Libm.

Definition M_PI : R := PI.

(** [atan2(y, x)]: the angle of the point [(x, y)], in (-PI, PI], with the
    value 0 at the origin. *)
Definition atan2 (y x : R) : R :=
  if Rlt_dec 0 x then atan (y / x)
  else if Rlt_dec x 0 then
         (if Rle_dec 0 y then atan (y / x) + PI else atan (y / x) - PI)
  else if Rlt_dec 0 y then PI / 2
  else if Rlt_dec y 0 then - (PI / 2)
  else 0.

End Libm.

(** ** Points and poses *)

Module QPointF.
Record t : Type := mk { x : R; y : R }.
End QPointF.

Module PosPoint.
(** The fields of a pose read by the code below: position in metres and
    yaw in degrees. *)
Record t : Type := mk { getX : R; getY : R; getHeight : R; getYaw : R }.

Definition setX (v : R) (p : t) : t := mk v (getY p) (getHeight p) (getYaw p).
Definition setY (v : R) (p : t) : t := mk (getX p) v (getHeight p) (getYaw p).
Definition setHeight (v : R) (p : t) : t := mk (getX p) (getY p) v (getYaw p).

(** The pose the comment of [getCurvatureWithTrailer] describes: position
    0,0 with 0 yaw. *)
Definition origin : t := mk 0 0 0 0.
End PosPoint.

(** ** vehicles/truckstate.cpp *)

Module TruckState.

(** What the curvature law reads of a truck: the trailer flag and the
    values returned by [getSpeed()], [getTrailerAngleRadians()] and
    [getAutopilotRadius()]. *)
Record t : Type := mk {
  mHasTrailer : bool;
  getSpeed : R;
  getTrailerAngleRadians : R;
  getAutopilotRadius : R
}.

Definition getHasTrailer (s : t) : bool := mHasTrailer s.

Definition setHasTrailer (hasTrailer : bool) (s : t) : t :=
  mk hasTrailer (getSpeed s) (getTrailerAngleRadians s) (getAutopilotRadius s).

(** Trailer wheelbase in metres, the local [l2] of
    [getCurvatureWithTrailer]. *)
Definition l2 : R := 715 / 1000.

Section WithDefaultPose.

(** [const PosPoint vehiclePos;] is a default-constructed pose.  The
    class [PosPoint] is declared in core/pospoint.h, so the pose is a
    parameter here; the source comment gives it as [PosPoint.origin]. *)
Variable vehiclePos : PosPoint.t.

(** [getCurvatureWithTrailer].  The reverse branch divides by
    [getAutopilotRadius()]: the embedding stands for the code where that
    radius is not zero, and the statements about the reverse branch say
    so. *)
Definition getCurvatureWithTrailer (s : t) (point : QPointF.t) : R :=
  let currYaw_rad := PosPoint.getYaw vehiclePos * Libm.M_PI / 180 in
  let measuredTrailerAngle := getTrailerAngleRadians s in
  if Rlt_dec 0 (getSpeed s) then
    let pointInVehicleFrame :=
      QPointF.mk (QPointF.x point - PosPoint.getX vehiclePos)
                 (QPointF.y point - PosPoint.getY vehiclePos) in
    let theta_err :=
      Libm.atan2 (QPointF.y pointInVehicleFrame)
                 (QPointF.x pointInVehicleFrame) - currYaw_rad in
    let desired_hitch_angle := atan (2 * l2 * sin theta_err) in
    let k := 1 in
    k * (measuredTrailerAngle - desired_hitch_angle)
    - sin measuredTrailerAngle / l2
  else
    let trailerYaw := currYaw_rad - measuredTrailerAngle in
    let delta_x_ := l2 * cos trailerYaw in
    let delta_y := l2 * sin trailerYaw in
    let trailerPositionx := PosPoint.getX vehiclePos - delta_x_ in
    let trailerPositiony := PosPoint.getY vehiclePos - delta_y in
    let pointInTrailerFrame :=
      QPointF.mk (QPointF.x point - trailerPositionx)
                 (QPointF.y point - trailerPositiony) in
    let theta_err :=
      Libm.atan2 (QPointF.y pointInTrailerFrame)
                 (QPointF.x pointInTrailerFrame) - trailerYaw in
    let desired_hitch_angle :=
      atan (2 * l2 * sin theta_err / getAutopilotRadius s) in
    let k := - (5 / 2) in
    k * (measuredTrailerAngle - desired_hitch_angle)
    - sin measuredTrailerAngle / l2.

(** The intermediate values of [getCurvatureWithTrailer], named so that
    statements can refer to them. *)

(** The vehicle's heading in radians. *)
Definition vehicleHeading : R := PosPoint.getYaw vehiclePos * Libm.M_PI / 180.

(** Bearing of the goal seen from the vehicle's position. *)
Definition bearingFromVehicle (point : QPointF.t) : R :=
  Libm.atan2 (QPointF.y point - PosPoint.getY vehiclePos)
             (QPointF.x point - PosPoint.getX vehiclePos).

(** Heading and position of the trailer: from the vehicle, backward along
    the hitch by [l2]. *)
Definition trailerHeading (measuredHitch : R) : R :=
  vehicleHeading - measuredHitch.

Definition trailerX (measuredHitch : R) : R :=
  PosPoint.getX vehiclePos - l2 * cos (trailerHeading measuredHitch).

Definition trailerY (measuredHitch : R) : R :=
  PosPoint.getY vehiclePos - l2 * sin (trailerHeading measuredHitch).

(** Bearing of the goal seen from the trailer's position. *)
Definition bearingFromTrailer (measuredHitch : R) (point : QPointF.t) : R :=
  Libm.atan2 (QPointF.y point - trailerY measuredHitch)
             (QPointF.x point - trailerX measuredHitch).

Definition getCurvatureToPointInVehicleFrame (s : t) (point : QPointF.t) : R :=
  if mHasTrailer s then getCurvatureWithTrailer s point
  else
    let distanceSquared := QPointF.x point ^ 2 + QPointF.y point ^ 2 in
    let steeringAngleProportional :=
      (2 * QPointF.y point) / distanceSquared in
    - steeringAngleProportional.

(** The divisor of the pure-pursuit branch. *)
Definition distanceSquared (point : QPointF.t) : R :=
  QPointF.x point ^ 2 + QPointF.y point ^ 2.

(** The bearing errors and desired hitch angles of the two branches. *)
Definition thetaErrForward (point : QPointF.t) : R :=
  bearingFromVehicle point - vehicleHeading.

Definition thetaErrReverse (measuredHitch : R) (point : QPointF.t) : R :=
  bearingFromTrailer measuredHitch point - trailerHeading measuredHitch.

Definition desiredHitchForward (point : QPointF.t) : R :=
  atan (2 * l2 * sin (thetaErrForward point)).

Definition desiredHitchReverse (s : t) (point : QPointF.t) : R :=
  atan (2 * l2 * sin (thetaErrReverse (getTrailerAngleRadians s) point)
        / getAutopilotRadius s).

End WithDefaultPose.

(** The trailer law in the words of the design description: gain [k],
    trailer wheelbase [L], pursuit radius [R], measured hitch angle and
    bearing error. *)
Definition desiredHitch (L radius theta_err : R) : R :=
  atan (2 * L * sin theta_err / radius).

Definition trailerLaw (k L radius measuredHitch theta_err : R) : R :=
  k * (measuredHitch - desiredHitch L radius theta_err) - sin measuredHitch / L.

(** [value] tends to [l] along goal points whose bearing error [err] tends
    to 0. *)
Definition tendsToAsErrVanishes (err value : QPointF.t -> R) (l : R) : Prop :=
  forall eps : R, 0 < eps ->
    exists delta : R, 0 < delta /\
      forall point : QPointF.t,
        0 < Rabs (err point) < delta -> Rabs (value point - l) < eps.

(** Concrete inputs: a truck with its trailer at a hitch angle of 30 degrees,
    driving forward at 1 m/s with autopilot radius 1, the same truck
    standing still, a truck without trailer, and a goal one metre straight
    ahead. *)
Definition hitchedTruck : t := mk true 1 (PI / 6) 1.

Definition standingTruck : t := mk true 0 (PI / 6) 1.

Definition reversingTruck : t := mk true (-1) (PI / 6) 1.

Definition soloTruck : t := mk false 1 0 1.

Definition goalAhead : QPointF.t := QPointF.mk 1 0.

Definition goalLeft : QPointF.t := QPointF.mk 1 1.

End TruckState.

(** ** autopilot/purepursuitwaypointfollower.h *)

Module Follower.

Inductive WayPointFollowerSTMstates : Type :=
| NONE
| FOLLOW_POINT_FOLLOWING
| FOLLOW_POINT_WAITING
| FOLLOW_ROUTE_INIT
| FOLLOW_ROUTE_GOTO_BEGIN
| FOLLOW_ROUTE_FOLLOWING
| FOLLOW_ROUTE_FINISHED.

Record WayPointFollowerState : Type := mkState {
  stmState : WayPointFollowerSTMstates;
  currentGoal : PosPoint.t;
  currentWaypointIndex : Z;
  purePursuitRadius : R;
  numWaypointsLookahead : Z;
  repeatRoute : bool;
  overrideAltitude : R;
  currentFollowPointInVehicleFrame : PosPoint.t;
  followPointSpeed : R;
  followPointDistance : R;
  followPointTimedOut : bool
}.

(** A freshly constructed [WayPointFollowerState]: every member with a
    default member initialiser has that value.  [currentWaypointIndex] has
    none, so its value is whatever the storage holds ([indeterminate]);
    the two poses are default-constructed ([defaultPose]). *)
Definition constructState (defaultPose : PosPoint.t) (indeterminate : Z)
  : WayPointFollowerState :=
  {| stmState := NONE;
     currentGoal := defaultPose;
     currentWaypointIndex := indeterminate;
     purePursuitRadius := 1;
     numWaypointsLookahead := 8;
     repeatRoute := false;
     overrideAltitude := 0;
     currentFollowPointInVehicleFrame := defaultPose;
     followPointSpeed := 1;
     followPointDistance := 3;
     followPointTimedOut := true |}.

(** [const unsigned mFollowPointTimeout_ms = 1000;] a constant member: no
    constructor of the header takes a timeout and no member function can
    assign it. *)
Definition mFollowPointTimeout_ms : Z := 1000.

Section WithPosType.

(** [PosType] is declared in vehicles/vehiclestate.h. *)
Variable PosType : Type.
Variable fused : PosType.

Record PurepursuitWaypointFollower : Type := mkFollower {
  mCurrentState : WayPointFollowerState;
  mPosTypeUsed : PosType;
  mMovementControllerIsNull : bool;
  mWaypointList : list PosPoint.t;
  mUpdateStatePeriod_ms : Z
}.

(** The members of a follower as their default member initialisers leave
    them; which backend pointer is set is the constructor's argument. *)
Definition constructFollower (defaultPose : PosPoint.t) (indeterminate : Z)
           (onVehicle : bool) : PurepursuitWaypointFollower :=
  {| mCurrentState := constructState defaultPose indeterminate;
     mPosTypeUsed := fused;
     mMovementControllerIsNull := negb onVehicle;
     mWaypointList := [];
     mUpdateStatePeriod_ms := 50 |}.

Definition isOnVehicle (f : PurepursuitWaypointFollower) : bool :=
  negb (mMovementControllerIsNull f).

(** The public member functions and public slots the header declares,
    each with its arguments. *)
Inductive PublicOperation : Type :=
| op_isOnVehicle
| op_getPurePursuitRadius
| op_setPurePursuitRadius (value : R)
| op_getFollowPointSpeed
| op_setFollowPointSpeed (value : R)
| op_getRepeatRoute
| op_setRepeatRoute (value : bool)
| op_getCurrentGoal
| op_clearRoute
| op_addWaypoint (point : PosPoint.t)
| op_addRoute (route : list PosPoint.t)
| op_startFollowingRoute (fromBeginning : bool)
| op_isActive
| op_stop
| op_resetState
| op_startFollowPoint
| op_getCurvatureToPointInENU (point : QPointF.t)
| op_getCurvatureToPointInVehicleFrame (point : QPointF.t)
| op_getInterpolatedSpeed (currentGoal lastWaypoint nextWaypoint : PosPoint.t)
| op_getPosTypeUsed
| op_setPosTypeUsed (posTypeUsed : PosType)
| op_updateFollowPointInVehicleFrame (point : PosPoint.t).

Definition withState (f : PurepursuitWaypointFollower)
           (st : WayPointFollowerState) : PurepursuitWaypointFollower :=
  mkFollower st (mPosTypeUsed f) (mMovementControllerIsNull f)
             (mWaypointList f) (mUpdateStatePeriod_ms f).

Definition withRoute (f : PurepursuitWaypointFollower)
           (route : list PosPoint.t) : PurepursuitWaypointFollower :=
  mkFollower (mCurrentState f) (mPosTypeUsed f) (mMovementControllerIsNull f)
             route (mUpdateStatePeriod_ms f).

Definition withStmState (st : WayPointFollowerState)
           (q : WayPointFollowerSTMstates) : WayPointFollowerState :=
  mkState q (currentGoal st) (currentWaypointIndex st) (purePursuitRadius st)
          (numWaypointsLookahead st) (repeatRoute st) (overrideAltitude st)
          (currentFollowPointInVehicleFrame st) (followPointSpeed st)
          (followPointDistance st) (followPointTimedOut st).

Definition followingRoute (q : WayPointFollowerSTMstates) : bool :=
  match q with
  | FOLLOW_ROUTE_INIT | FOLLOW_ROUTE_GOTO_BEGIN | FOLLOW_ROUTE_FOLLOWING => true
  | _ => false
  end.

(** Modelled from the spec: the bodies of the member functions, which are
    in purepursuitwaypointfollower.cpp.  A setter stores its argument
    (a non-positive pursuit radius is rejected and the state stays as it
    was); [clearRoute] empties the route and goes back to idle while a
    route is followed; [startFollowingRoute] goes to FOLLOW_ROUTE_INIT
    unless the route is empty; [stop] goes to NONE; [resetState] also
    clears the route progress and puts the staleness flag back to its
    constructed value; [startFollowPoint] goes to FOLLOW_POINT_WAITING;
    a follow-point update stores the point, is not stale, and leaves
    FOLLOW_POINT_WAITING for FOLLOW_POINT_FOLLOWING.  Getters and the
    geometry functions read only. *)
Definition run (op : PublicOperation) (f : PurepursuitWaypointFollower)
  : PurepursuitWaypointFollower :=
  let st := mCurrentState f in
  match op with
  | op_setPurePursuitRadius value =>
      if Rlt_dec 0 value then
        withState f
          (mkState (stmState st) (currentGoal st) (currentWaypointIndex st)
                   value
                   (numWaypointsLookahead st) (repeatRoute st)
                   (overrideAltitude st) (currentFollowPointInVehicleFrame st)
                   (followPointSpeed st) (followPointDistance st)
                   (followPointTimedOut st))
      else f
  | op_setFollowPointSpeed value =>
      withState f
        (mkState (stmState st) (currentGoal st) (currentWaypointIndex st)
                 (purePursuitRadius st)
                 (numWaypointsLookahead st) (repeatRoute st)
                 (overrideAltitude st) (currentFollowPointInVehicleFrame st)
                 value (followPointDistance st)
                 (followPointTimedOut st))
  | op_setRepeatRoute value =>
      withState f
        (mkState (stmState st) (currentGoal st) (currentWaypointIndex st)
                 (purePursuitRadius st)
                 (numWaypointsLookahead st) value
                 (overrideAltitude st) (currentFollowPointInVehicleFrame st)
                 (followPointSpeed st) (followPointDistance st)
                 (followPointTimedOut st))
  | op_clearRoute =>
      let f' := withRoute f [] in
      if followingRoute (stmState st) then withState f' (withStmState st NONE)
      else f'
  | op_addWaypoint point => withRoute f (mWaypointList f ++ [point])
  | op_addRoute route => withRoute f (mWaypointList f ++ route)
  | op_startFollowingRoute fromBeginning =>
      match mWaypointList f with
      | [] => f
      | _ :: _ => withState f (withStmState st FOLLOW_ROUTE_INIT)
      end
  | op_stop => withState f (withStmState st NONE)
  | op_resetState =>
      withState f
        (mkState NONE (currentGoal st) 0%Z
                 (purePursuitRadius st)
                 (numWaypointsLookahead st) (repeatRoute st)
                 (overrideAltitude st) (currentFollowPointInVehicleFrame st)
                 (followPointSpeed st) (followPointDistance st)
                 true)
  | op_startFollowPoint => withState f (withStmState st FOLLOW_POINT_WAITING)
  | op_setPosTypeUsed posTypeUsed =>
      mkFollower st posTypeUsed (mMovementControllerIsNull f)
                 (mWaypointList f) (mUpdateStatePeriod_ms f)
  | op_updateFollowPointInVehicleFrame point =>
      withState f
        (mkState (match stmState st with
                  | FOLLOW_POINT_WAITING => FOLLOW_POINT_FOLLOWING
                  | q => q
                  end)
                 (currentGoal st) (currentWaypointIndex st)
                 (purePursuitRadius st)
                 (numWaypointsLookahead st) (repeatRoute st)
                 (overrideAltitude st) point
                 (followPointSpeed st) (followPointDistance st)
                 false)
  | op_isOnVehicle | op_getPurePursuitRadius | op_getFollowPointSpeed
  | op_getRepeatRoute | op_getCurrentGoal | op_isActive
  | op_getCurvatureToPointInENU _ | op_getCurvatureToPointInVehicleFrame _
  | op_getInterpolatedSpeed _ _ _ | op_getPosTypeUsed => f
  end.

(** The seven configuration options of the external interface, each with
    a value. *)
Inductive ConfigOption : Type :=
| pursuitRadius (meters : R)
| numWaypointsLookaheadOpt (n : Z)
| repeatRouteOpt (b : bool)
| followPointSpeedOpt (mps : R)
| followPointDistanceOpt (meters : R)
| followPointTimeoutMs (n : Z)
| tickPeriodMs (n : Z).

(** The constraint the interface states for each option. *)
Definition constraint (o : ConfigOption) : Prop :=
  match o with
  | pursuitRadius meters => 0 < meters
  | numWaypointsLookaheadOpt n => (1 <= n)%Z
  | repeatRouteOpt _ => True
  | followPointSpeedOpt mps => 0 <= mps
  | followPointDistanceOpt meters => 0 <= meters
  | followPointTimeoutMs n => (0 < n)%Z
  | tickPeriodMs n => (0 < n)%Z
  end.

(** The follower has the option at the given value. *)
Definition configured (o : ConfigOption) (f : PurepursuitWaypointFollower) : Prop :=
  match o with
  | pursuitRadius meters => purePursuitRadius (mCurrentState f) = meters
  | numWaypointsLookaheadOpt n => numWaypointsLookahead (mCurrentState f) = n
  | repeatRouteOpt b => repeatRoute (mCurrentState f) = b
  | followPointSpeedOpt mps => followPointSpeed (mCurrentState f) = mps
  | followPointDistanceOpt meters => followPointDistance (mCurrentState f) = meters
  | followPointTimeoutMs n => mFollowPointTimeout_ms = n
  | tickPeriodMs n => mUpdateStatePeriod_ms f = n
  end.

(** Some public operation sets the option, whatever the follower was. *)
Definition settable (o : ConfigOption) : Prop :=
  exists op : PublicOperation,
    forall f : PurepursuitWaypointFollower, configured o (run op f).

End WithPosType.

Arguments mCurrentState {PosType} _.
Arguments mPosTypeUsed {PosType} _.
Arguments mMovementControllerIsNull {PosType} _.
Arguments mWaypointList {PosType} _.
Arguments mUpdateStatePeriod_ms {PosType} _.
Arguments run {PosType} _ _.
Arguments configured {PosType} _ _.

End Follower.

(** ** communication/vehicleconnections/mavsdkvehicleconnection.cpp *)

Module MavsdkVehicleConnection.

Record llh_t : Type := mk_llh { latitude : R; longitude : R; height : R }.

Record xyz_t : Type := mk_xyz { x : R; y : R; z : R }.

(** A [float] command parameter: a number or [NAN]. *)
Inductive param : Type :=
| Num (r : R)
| NAN.

(** [mavsdk::MavlinkPassthrough::CommandLong] *)
Record CommandLong : Type := mkCommandLong {
  target_sysid : Z;
  target_compid : Z;
  command : Z;
  param1 : param;
  param2 : param;
  param3 : param;
  param4 : param;
  param5 : param;
  param6 : param;
  param7 : param
}.

(** [mavsdk::MavlinkPassthrough::Result] *)
Inductive Result : Type :=
| Unknown
| Success
| ConnectionError
| CommandNoSystem
| CommandBusy
| CommandDenied
| CommandUnsupported
| CommandTimeout
| CommandTemporarilyRejected
| CommandFailed.

Definition Result_eqb (a b : Result) : bool :=
  match a, b with
  | Unknown, Unknown | Success, Success | ConnectionError, ConnectionError
  | CommandNoSystem, CommandNoSystem | CommandBusy, CommandBusy
  | CommandDenied, CommandDenied | CommandUnsupported, CommandUnsupported
  | CommandTimeout, CommandTimeout
  | CommandTemporarilyRejected, CommandTemporarilyRejected
  | CommandFailed, CommandFailed => true
  | _, _ => false
  end.

(** MAVLink command number of MAV_CMD_DO_SET_HOME. *)
Definition MAV_CMD_DO_SET_HOME : Z := 179.

(** What this file reads and writes of the vehicle state. *)
Record VehicleState : Type := mkVehicleState {
  getHomePosition : PosPoint.t;
  getIsArmed : bool;
  getAutopilotRadius : R
}.

Definition setHomePosition (homePos : PosPoint.t) (v : VehicleState) : VehicleState :=
  mkVehicleState homePos (getIsArmed v) (getAutopilotRadius v).

(** The connection: the ENU reference, the shared pointer to the vehicle
    state ([None] when null, as the constructor leaves it for an
    unsupported vehicle type) and the target ids of the passthrough. *)
Record t : Type := mk {
  mEnuReference : llh_t;
  mVehicleState : option VehicleState;
  get_target_sysid : Z;
  get_target_compid : Z
}.

Definition setEnuReference (enuReference : llh_t) (c : t) : t :=
  mk enuReference (mVehicleState c) (get_target_sysid c) (get_target_compid c).

Section WithLink.

(** [coordinateTransforms::llhToEnu], from another file of the
    repository. *)
Variable llhToEnu : llh_t -> llh_t -> xyz_t.

(** The answer of the link to a command sent with
    [send_command_long]. *)
Variable send_command_long : CommandLong -> Result.

(** The command [setHomeLlh] builds. *)
Definition homeCommand (c : t) (homeLlh : llh_t) : CommandLong :=
  {| target_sysid := get_target_sysid c;
     target_compid := get_target_compid c;
     command := MAV_CMD_DO_SET_HOME;
     param1 := Num 0;
     param2 := Num 0;
     param3 := Num 0;
     param4 := NAN;
     param5 := Num (latitude homeLlh);
     param6 := Num (longitude homeLlh);
     param7 := Num (height homeLlh) |}.

(** [setHomeLlh]: the connection after the call, or [None] when the call
    dereferences a null vehicle state. *)
Definition setHomeLlh (c : t) (homeLlh : llh_t) : option t :=
  let ComLong := homeCommand c homeLlh in
  if Result_eqb (send_command_long ComLong) Success then
    let xyz := llhToEnu (mEnuReference c) homeLlh in
    match mVehicleState c with
    | None => None
    | Some vehicleState =>
        let homePos := getHomePosition vehicleState in
        let homePos := PosPoint.setX (x xyz) homePos in
        let homePos := PosPoint.setY (y xyz) homePos in
        let homePos := PosPoint.setHeight (z xyz) homePos in
        Some (mk (mEnuReference c)
                 (Some (setHomePosition homePos vehicleState))
                 (get_target_sysid c) (get_target_compid c))
    end
  else Some c.

End WithLink.

(** Concrete inputs: a rover connection with its home at the origin, a home
    to request, a link that times out, a link that accepts, and a stand-in
    for the coordinate transform. *)
Definition roverConnection : t :=
  mk (mk_llh 57 12 0)
     (Some (mkVehicleState PosPoint.origin false 1))
     1%Z 1%Z.

Definition requestedHome : llh_t := mk_llh 58 13 5.

Definition timingOutLink (_ : CommandLong) : Result := CommandTimeout.

Definition acceptingLink (_ : CommandLong) : Result := Success.

Definition offsetFromReference (ref llh : llh_t) : xyz_t :=
  mk_xyz (longitude llh - longitude ref) (latitude llh - latitude ref)
         (height llh - height ref).

End MavsdkVehicleConnection.

(** ** Conversions from [double] to integer types *)

Module Cast.

Definition INT32_MIN : Z := - 2147483648.
Definition INT32_MAX : Z := 2147483647.

Definition fitsInt32 (z : Z) : bool :=
  ((INT32_MIN <=? z) && (z <=? INT32_MAX))%Z.

(** The integer part kept by a conversion to an integer type: the fraction
    is discarded, towards zero. *)
Definition truncate (r : R) : Z :=
  if Rle_dec 0 r then Zfloor r else Zceil r.

(** [(int) r] and [int32_t(r)]: defined when the truncated value is
    representable, undefined ([None]) otherwise. *)
Definition toInt32 (r : R) : option Z :=
  let z := truncate r in
  if fitsInt32 z then Some z else None.

(** [std::round]: to the nearest integer, halfway cases away from zero. *)
Definition round (r : R) : R :=
  IZR (if Rle_dec 0 r then Zfloor (r + / 2) else Zceil (r - / 2)).

(** A product of two [double]s as the machine computes it is the exact
    product rounded to a [double].  [accurateAt mul a b] bounds what the
    rounding of [mul a b] can change: half a unit in the last of 53 binary
    digits, and for products too small for 53 digits an absolute amount far
    below [1e-12]. *)
Definition accurateAt (mul : R -> R -> R) (a b : R) : Prop :=
  Rabs (mul a b - a * b)
  <= Rabs (a * b) / 9007199254740992 + / 1000000000000.

(** Assignment to a [uint8_t]. *)
Definition uint8 (z : Z) : Z := (z mod 256)%Z.

End Cast.

(** ** [MavsdkVehicleConnection::inputRtcmData] *)

Module Rtcm.

Import Cast.

Definition MAVLINK_MSG_GPS_RTCM_DATA_FIELD_DATA_LEN : nat := 180.

(** [mavlink_gps_rtcm_data_t]: [flags], [len] and the 180 bytes of
    [data]. *)
Record mavlink_gps_rtcm_data_t : Type := mkRtcmData {
  flags : Z;
  len : Z;
  data : list Byte.byte
}.

(** What [mavlink_msg_gps_rtcm_data_encode] packs: the sender's ids and the
    payload as it is at the call. *)
Record mavlink_message_t : Type := mkMessage {
  sysid : Z;
  compid : Z;
  payload : mavlink_gps_rtcm_data_t
}.

(** [memset(&mavRtcmData, 0, sizeof(mavlink_gps_rtcm_data_t))] *)
Definition zeroed : mavlink_gps_rtcm_data_t :=
  mkRtcmData 0 0 (repeat Byte.x00 MAVLINK_MSG_GPS_RTCM_DATA_FIELD_DATA_LEN).

(** [memcpy(dst, src, n)] with [src] the [n] bytes copied: the front of
    [dst] is overwritten and the rest stays. *)
Definition memcpy (dst src : list Byte.byte) : list Byte.byte :=
  src ++ skipn (length src) dst.

(** [n] bytes of [bytes] from offset [pos]. *)
Definition mid (bytes : list Byte.byte) (pos n : nat) : list Byte.byte :=
  firstn n (skipn pos bytes).

Section WithIds.

Variable get_our_sysid : Z.
Variable get_our_compid : Z.

Definition encode (p : mavlink_gps_rtcm_data_t) : mavlink_message_t :=
  mkMessage get_our_sysid get_our_compid p.

(** The variables of the fragmenting loop and the messages handed to
    [send_message] so far. *)
Record LoopState : Type := mkLoop {
  fragmentId : Z;
  numBytesProcessed : nat;
  mavRtcmData : mavlink_gps_rtcm_data_t;
  sent : list mavlink_message_t
}.

(** One pass through the body of the [while] loop. *)
Definition loopBody (sequenceId : Z) (rtcmData : list Byte.byte)
           (st : LoopState) : LoopState :=
  let fragmentLength :=
    Nat.min (length rtcmData - numBytesProcessed st)
            MAVLINK_MSG_GPS_RTCM_DATA_FIELD_DATA_LEN in
  let flags0 := 1%Z in
  let flags1 := uint8 (Z.lor flags0 (Z.shiftl (fragmentId st) 1)) in
  let fragmentId' := uint8 (fragmentId st + 1) in
  let flags2 := uint8 (Z.lor flags1 (Z.shiftl (Z.land sequenceId 31) 3)) in
  let data' :=
    memcpy (data (mavRtcmData st))
           (mid rtcmData (numBytesProcessed st) fragmentLength) in
  let mavRtcmData' := mkRtcmData flags2 (uint8 (Z.of_nat fragmentLength)) data' in
  mkLoop fragmentId'
         (numBytesProcessed st + fragmentLength)
         mavRtcmData'
         (sent st ++ [encode mavRtcmData']).

(** The [while] loop, at most [fuel] passes. *)
Fixpoint whileLoop (fuel : nat) (sequenceId : Z) (rtcmData : list Byte.byte)
         (st : LoopState) : LoopState :=
  match fuel with
  | O => st
  | S fuel' =>
      if numBytesProcessed st <? length rtcmData then
        whileLoop fuel' sequenceId rtcmData (loopBody sequenceId rtcmData st)
      else st
  end.

(** [inputRtcmData]: the messages handed to [send_message], in order, and
    the value of the static [sequenceId] after the call.  Every pass of the
    loop consumes at least one byte, so [length rtcmData] passes are
    enough. *)
Definition inputRtcmData (passthroughIsNull : bool) (sequenceId : Z)
           (rtcmData : list Byte.byte) : list mavlink_message_t * Z :=
  if passthroughIsNull then ([], sequenceId)
  else
    let mavRtcmData := zeroed in
    let messages :=
      if length rtcmData <? MAVLINK_MSG_GPS_RTCM_DATA_FIELD_DATA_LEN then
        [encode (mkRtcmData (uint8 (Z.shiftl (Z.land sequenceId 31) 3))
                            (uint8 (Z.of_nat (length rtcmData)))
                            (memcpy (data mavRtcmData) rtcmData))]
      else
        sent (whileLoop (length rtcmData) sequenceId rtcmData
                        (mkLoop 0 0 mavRtcmData []))
    in
    (messages, uint8 (sequenceId + 1)).

End WithIds.

(** [flags] of the fragment with index [i] (from 0), as the loop body
    computes it from the 8-bit fragment counter. *)
Definition fragmentFlags (sequenceId : Z) (i : nat) : Z :=
  uint8 (Z.lor (uint8 (Z.lor 1 (Z.shiftl (uint8 (Z.of_nat i)) 1)))
               (Z.shiftl (Z.land sequenceId 31) 3)).

(** The bytes a receiver reads from a message: the first [len] of
    [data]. *)
Definition carried (m : mavlink_message_t) : list Byte.byte :=
  firstn (Z.to_nat (len (payload m))) (data (payload m)).

(** The three fields of [flags] as the protocol lays them out: bit 0 the
    fragmented mark, bits 1-2 the fragment id, bits 3-7 the sequence id. *)
Definition flagFragmented (f : Z) : bool := Z.testbit f 0.
Definition flagFragmentId (f : Z) : Z := Z.land (Z.shiftr f 1) 3.
Definition flagSequenceId (f : Z) : Z := Z.shiftr f 3.

(** Concrete inputs: RTCM data of 5, 200 and 800 bytes. *)
Definition fewBytes : list Byte.byte := repeat Byte.x01 5.
Definition twoFragments : list Byte.byte := repeat Byte.x02 200.
Definition fiveFragments : list Byte.byte := repeat Byte.x03 800.

End Rtcm.

(** ** vehicles/controller/vescmotorcontroller.cpp *)

Module VESCMotorController.

(** The packet ids this file uses, of [VESC::COMM_PACKET_ID]. *)
Inductive COMM_PACKET_ID : Type :=
| COMM_FW_VERSION
| COMM_SET_CURRENT
| COMM_SET_RPM
| COMM_SET_SERVO_POS
| COMM_ALIVE
| COMM_GET_VALUES_SELECTIVE
| COMM_GET_IMU_DATA
| COMM_PRINT.

(** A [VByteArray] being filled: the append calls made on it, in order (the
    class is in core/vbytearray.h). *)
Inductive VbAppend : Type :=
| vbAppendInt8 (id : COMM_PACKET_ID)
| vbAppendUint8 (id : COMM_PACKET_ID)
| vbAppendUint16 (v : Z)
| vbAppendInt32 (v : Z)
| vbAppendUint32 (v : Z)
| vbAppendDouble16 (v scale : R)
| vbAppendDouble32 (v scale : R).

Definition VByteArray : Type := list VbAppend.

(** The members the request and timer code reads and writes, the static
    flag of the check-current timer, and the packets handed to
    [mVESCPacket.sendPacket], oldest first. *)
Record t : Type := mk {
  mLastRPMrequest : Z;
  setCurrentToZeroNextTime : bool;
  mEnableIMUOrientationUpdate : bool;
  sentPackets : list VByteArray
}.

Definition sendPacket (vb : VByteArray) (c : t) : t :=
  mk (mLastRPMrequest c) (setCurrentToZeroNextTime c)
     (mEnableIMUOrientationUpdate c) (sentPackets c ++ [vb]).

(** The packets of [requestRPM] and of the check-current timer. *)
Definition rpmPacket (rpm : Z) : VByteArray :=
  [vbAppendInt8 COMM_SET_RPM; vbAppendInt32 rpm].

Definition zeroCurrentPacket : VByteArray :=
  [vbAppendInt8 COMM_SET_CURRENT; vbAppendDouble32 0 1000].

Section WithConstants.

(** Constants of vescmotorcontroller.h. *)
Variable MAX_RPM_CONSIDERED_STOP : Z.
Variable SELECT_VALUES_MASK : Z.
Variable SELECT_IMU_DATA_MASK : Z.

(** [abs(rpm) < MAX_RPM_CONSIDERED_STOP]; [abs] is that of C for every
    [int32_t] but the least, where C leaves it undefined. *)
Definition consideredStop (rpm : Z) : bool :=
  (Z.abs rpm <? MAX_RPM_CONSIDERED_STOP)%Z.

Definition requestRPM (rpm : Z) (c : t) : t :=
  let c1 :=
    if negb (consideredStop (mLastRPMrequest c) && consideredStop rpm) then
      let vb := [vbAppendInt8 COMM_SET_RPM; vbAppendInt32 rpm] in
      sendPacket vb c
    else c in
  mk rpm (setCurrentToZeroNextTime c1) (mEnableIMUOrientationUpdate c1)
     (sentPackets c1).

Definition setEnableIMUOrientationUpdate (enabled : bool) (c : t) : t :=
  mk (mLastRPMrequest c) (setCurrentToZeroNextTime c) enabled (sentPackets c).

Definition pollFirmwareVersion (c : t) : t :=
  sendPacket [vbAppendInt8 COMM_FW_VERSION] c.

(** [VESCServoController::requestSteering] *)
Definition requestSteering (steering : R) (c : t) : t :=
  sendPacket [vbAppendInt8 COMM_SET_SERVO_POS; vbAppendDouble16 steering 1000] c.

(** The slot of [mHeartbeatTimer]. *)
Definition heartbeatTimeout (c : t) : t :=
  sendPacket [vbAppendInt8 COMM_ALIVE] c.

(** The slot of [mPollValuesTimer]. *)
Definition pollValuesTimeout (c : t) : t :=
  let c1 :=
    sendPacket [vbAppendUint8 COMM_GET_VALUES_SELECTIVE;
                vbAppendUint32 SELECT_VALUES_MASK] c in
  if mEnableIMUOrientationUpdate c1 then
    sendPacket [vbAppendUint8 COMM_GET_IMU_DATA;
                vbAppendUint16 SELECT_IMU_DATA_MASK] c1
  else c1.

(** The slot of [mCheckCurrentTimer]. *)
Definition checkCurrentTimeout (c : t) : t :=
  if setCurrentToZeroNextTime c then
    let vb := [vbAppendInt8 COMM_SET_CURRENT; vbAppendDouble32 0 1000] in
    let c1 := sendPacket vb c in
    mk (mLastRPMrequest c1) false (mEnableIMUOrientationUpdate c1)
       (sentPackets c1)
  else if consideredStop (mLastRPMrequest c) then
    mk (mLastRPMrequest c) true (mEnableIMUOrientationUpdate c) (sentPackets c)
  else c.

(** What the event loop delivers to the controller. *)
Inductive Event : Type :=
| RequestRPM (rpm : Z)
| RequestSteering (steering : R)
| HeartbeatTimeout
| PollValuesTimeout
| CheckCurrentTimeout
| SetEnableIMUOrientationUpdate (enabled : bool).

Definition handle (c : t) (e : Event) : t :=
  match e with
  | RequestRPM rpm => requestRPM rpm c
  | RequestSteering steering => requestSteering steering c
  | HeartbeatTimeout => heartbeatTimeout c
  | PollValuesTimeout => pollValuesTimeout c
  | CheckCurrentTimeout => checkCurrentTimeout c
  | SetEnableIMUOrientationUpdate enabled => setEnableIMUOrientationUpdate enabled c
  end.

Definition handleAll (events : list Event) (c : t) : t :=
  fold_left handle events c.

End WithConstants.

(** The RPM of the last [COMM_SET_RPM] packet among [packets], if any. *)
Fixpoint lastRPMSent (packets : list VByteArray) : option Z :=
  match packets with
  | [] => None
  | vb :: rest =>
      match lastRPMSent rest with
      | Some rpm => Some rpm
      | None =>
          match vb with
          | [vbAppendInt8 COMM_SET_RPM; vbAppendInt32 rpm] => Some rpm
          | _ => None
          end
      end
  end.

(** The RPM of the last [RequestRPM] among [events], if any. *)
Fixpoint lastRPMRequested (events : list Event) : option Z :=
  match events with
  | [] => None
  | e :: rest =>
      match lastRPMRequested rest with
      | Some rpm => Some rpm
      | None =>
          match e with
          | RequestRPM rpm => Some rpm
          | _ => None
          end
      end
  end.

(** An [int32_t] whose [abs] is defined. *)
Definition absDefined (rpm : Z) : Prop :=
  (Cast.INT32_MIN < rpm <= Cast.INT32_MAX)%Z.

Definition eventDefined (e : Event) : Prop :=
  match e with
  | RequestRPM rpm => absDefined rpm
  | _ => True
  end.

(** Concrete inputs: a controller that has sent nothing, at rest and at
    1000 RPM. *)
Definition atRest : t := mk 0 false false [].
Definition running : t := mk 1000 false false [].

End VESCMotorController.

(** ** Further requests of [MavsdkVehicleConnection] *)

Module MavsdkRequests.

Import Cast.

(** The values of [MAV_TYPE], [MAV_CMD] and [MAV_FRAME] this file names;
    [MAV_FRAME_zero] is the frame a zeroed command is left with. *)
Inductive MAV_TYPE : Type :=
| MAV_TYPE_QUADROTOR
| MAV_TYPE_GROUND_ROVER
| MAV_TYPE_other (n : Z).

Inductive MAV_CMD : Type :=
| MAV_CMD_DO_REPOSITION
| MAV_CMD_NAV_WAYPOINT.

Inductive MAV_FRAME : Type :=
| MAV_FRAME_zero
| MAV_FRAME_LOCAL_ENU.

Inductive MAV_MISSION_TYPE : Type :=
| MAV_MISSION_TYPE_MISSION.

(** How a call ends: it returns, it throws [std::logic_error], or it
    converts a number that its target type cannot hold, which C++ leaves
    undefined. *)
Inductive Outcome (A : Type) : Type :=
| Returned (a : A)
| Thrown
| Undefined.

Arguments Returned {A} a.
Arguments Thrown {A}.
Arguments Undefined {A}.

(** *** The home position from telemetry *)

Section WithTransform.

Variable llhToEnu :
  MavsdkVehicleConnection.llh_t -> MavsdkVehicleConnection.llh_t ->
  MavsdkVehicleConnection.xyz_t.

(** The callback given to [subscribe_home]: the connection after it (or
    [None] when the vehicle state is null) and the position it emits with
    [gotVehicleHomeLlh]. *)
Definition homeCallback (c : MavsdkVehicleConnection.t)
           (position : MavsdkVehicleConnection.llh_t)
  : option (MavsdkVehicleConnection.t * MavsdkVehicleConnection.llh_t) :=
  let llh :=
    MavsdkVehicleConnection.mk_llh
      (MavsdkVehicleConnection.latitude position)
      (MavsdkVehicleConnection.longitude position)
      (MavsdkVehicleConnection.height position) in
  let xyz := llhToEnu (MavsdkVehicleConnection.mEnuReference c) llh in
  match MavsdkVehicleConnection.mVehicleState c with
  | None => None
  | Some vehicleState =>
      let homePos := MavsdkVehicleConnection.getHomePosition vehicleState in
      let homePos := PosPoint.setX (MavsdkVehicleConnection.x xyz) homePos in
      let homePos := PosPoint.setY (MavsdkVehicleConnection.y xyz) homePos in
      let homePos := PosPoint.setHeight (MavsdkVehicleConnection.z xyz) homePos in
      Some (MavsdkVehicleConnection.mk
              (MavsdkVehicleConnection.mEnuReference c)
              (Some (MavsdkVehicleConnection.setHomePosition homePos vehicleState))
              (MavsdkVehicleConnection.get_target_sysid c)
              (MavsdkVehicleConnection.get_target_compid c),
            llh)
  end.

End WithTransform.

(** *** Go to a position *)

(** [mavsdk::MavlinkPassthrough::CommandInt] *)
Record CommandInt : Type := mkCommandInt {
  target_sysid : Z;
  target_compid : Z;
  frame : MAV_FRAME;
  command : MAV_CMD;
  current : bool;
  autocontinue : bool;
  param1 : MavsdkVehicleConnection.param;
  param2 : MavsdkVehicleConnection.param;
  param3 : MavsdkVehicleConnection.param;
  param4 : MavsdkVehicleConnection.param;
  x : Z;
  y : Z;
  z : R
}.

(** What a goto request hands to MAVSDK. *)
Inductive GotoRequest : Type :=
| goto_location_async (latitude_deg longitude_deg absolute_altitude_m : R)
                      (yaw_deg : MavsdkVehicleConnection.param)
| send_command_int (ComInt : CommandInt).

Section WithDoubleProduct.

(** The product of two [double]s as computed: [llh.latitude * 1e7] and the
    like are rounded to a [double] before they are converted. *)
Variable mulDouble : R -> R -> R.

Definition requestGotoLlh (c : MavsdkVehicleConnection.t)
           (llh : MavsdkVehicleConnection.llh_t)
           (changeFlightmodeToHold : bool) : Outcome (list GotoRequest) :=
  if changeFlightmodeToHold then
    Returned [goto_location_async (MavsdkVehicleConnection.latitude llh)
                                  (MavsdkVehicleConnection.longitude llh)
                                  (MavsdkVehicleConnection.height llh)
                                  MavsdkVehicleConnection.NAN]
  else
    match toInt32 (round (mulDouble (MavsdkVehicleConnection.latitude llh)
                                    10000000)),
          toInt32 (round (mulDouble (MavsdkVehicleConnection.longitude llh)
                                    10000000)) with
    | Some x', Some y' =>
        Returned [send_command_int
                    {| target_sysid := MavsdkVehicleConnection.get_target_sysid c;
                       target_compid := MavsdkVehicleConnection.get_target_compid c;
                       frame := MAV_FRAME_zero;
                       command := MAV_CMD_DO_REPOSITION;
                       current := false;
                       autocontinue := false;
                       param1 := MavsdkVehicleConnection.Num 0;
                       param2 := MavsdkVehicleConnection.Num 0;
                       param3 := MavsdkVehicleConnection.Num 0;
                       param4 := MavsdkVehicleConnection.NAN;
                       x := x';
                       y := y';
                       z := MavsdkVehicleConnection.height llh |}]
    | _, _ => Undefined
    end.

Section WithInverseTransform.

(** [coordinateTransforms::enuToLlh], from another file of the
    repository. *)
Variable enuToLlh :
  MavsdkVehicleConnection.llh_t -> MavsdkVehicleConnection.xyz_t ->
  MavsdkVehicleConnection.llh_t.

Definition requestGotoENU (mConvertLocalPositionsToGlobalBeforeSending : bool)
           (c : MavsdkVehicleConnection.t) (xyz : MavsdkVehicleConnection.xyz_t)
           (changeFlightmodeToHold : bool) : Outcome (list GotoRequest) :=
  if mConvertLocalPositionsToGlobalBeforeSending then
    let llh := enuToLlh (MavsdkVehicleConnection.mEnuReference c) xyz in
    requestGotoLlh c llh changeFlightmodeToHold
  else Returned [].

End WithInverseTransform.

(** *** The GPS origin *)

(** [mavlink_set_gps_global_origin_t] *)
Record mavlink_set_gps_global_origin_t : Type := mkGpsOrigin {
  latitude : Z;
  longitude : Z;
  altitude : Z;
  time_usec : Z;
  target_system : Z
}.

(** [sendSetGpsOriginLlh]: the messages handed to [send_message]. *)
Definition sendSetGpsOriginLlh (passthroughIsNull : bool)
           (c : MavsdkVehicleConnection.t)
           (gpsOriginLlh : MavsdkVehicleConnection.llh_t)
  : Outcome (list mavlink_set_gps_global_origin_t) :=
  if passthroughIsNull then Returned []
  else
    match toInt32 (mulDouble (MavsdkVehicleConnection.latitude gpsOriginLlh)
                             10000000),
          toInt32 (mulDouble (MavsdkVehicleConnection.longitude gpsOriginLlh)
                             10000000),
          toInt32 (mulDouble (MavsdkVehicleConnection.height gpsOriginLlh)
                             1000) with
    | Some lat, Some lon, Some alt =>
        Returned [{| latitude := lat;
                     longitude := lon;
                     altitude := alt;
                     time_usec := 0;
                     target_system := MavsdkVehicleConnection.get_target_sysid c |}]
    | _, _, _ => Undefined
    end.

End WithDoubleProduct.

(** *** Routes as missions *)

(** A route point: its pose and the speed and attributes it carries. *)
Record RoutePoint : Type := mkRoutePoint {
  pose : PosPoint.t;
  getSpeed : R;
  getAttributes : Z
}.

(** [mavsdk::MissionRaw::MissionItem] *)
Record MissionItem : Type := mkMissionItem {
  seq : Z;
  item_frame : MAV_FRAME;
  item_command : MAV_CMD;
  item_current : bool;
  item_autocontinue : bool;
  item_param1 : MavsdkVehicleConnection.param;
  item_param2 : MavsdkVehicleConnection.param;
  item_param3 : MavsdkVehicleConnection.param;
  item_param4 : MavsdkVehicleConnection.param;
  item_x : Z;
  item_y : Z;
  item_z : R;
  mission_type : MAV_MISSION_TYPE
}.

Definition isGroundRover (vehicleType : MAV_TYPE) : bool :=
  match vehicleType with
  | MAV_TYPE_GROUND_ROVER => true
  | _ => false
  end.

Definition convertPosPointToMissionItem (mVehicleType : MAV_TYPE)
           (posPoint : RoutePoint) (sequenceId : Z) (current : bool)
  : Outcome MissionItem :=
  if isGroundRover mVehicleType then
    match toInt32 (PosPoint.getX (pose posPoint) * 100000),
          toInt32 (PosPoint.getY (pose posPoint) * 100000) with
    | Some x', Some y' =>
        Returned {| seq := sequenceId;
                    item_frame := MAV_FRAME_LOCAL_ENU;
                    item_command := MAV_CMD_NAV_WAYPOINT;
                    item_current := current;
                    item_autocontinue := true;
                    item_param1 := MavsdkVehicleConnection.Num (getSpeed posPoint);
                    item_param2 :=
                      MavsdkVehicleConnection.Num (IZR (getAttributes posPoint));
                    item_param3 := MavsdkVehicleConnection.Num 0;
                    item_param4 := MavsdkVehicleConnection.NAN;
                    item_x := x';
                    item_y := y';
                    item_z := PosPoint.getHeight (pose posPoint);
                    mission_type := MAV_MISSION_TYPE_MISSION |}
    | _, _ => Undefined
    end
  else Thrown.

(** The [for] loop of [appendToRouteOnVehicle] from index [i] on. *)
Fixpoint convertRouteFrom (mVehicleType : MAV_TYPE) (i : nat)
         (route : list RoutePoint) : Outcome (list MissionItem) :=
  match route with
  | [] => Returned []
  | posPoint :: rest =>
      match convertPosPointToMissionItem mVehicleType posPoint (Z.of_nat i)
                                         (Nat.eqb i 0) with
      | Returned item =>
          match convertRouteFrom mVehicleType (S i) rest with
          | Returned items => Returned (item :: items)
          | Thrown => Thrown
          | Undefined => Undefined
          end
      | Thrown => Thrown
      | Undefined => Undefined
      end
  end.

(** [appendToRouteOnVehicle]: the mission handed to
    [upload_mission_async]. *)
Definition appendToRouteOnVehicle (mVehicleType : MAV_TYPE)
           (route : list RoutePoint) : Outcome (list MissionItem) :=
  convertRouteFrom mVehicleType 0 route.

(** Concrete input: a route of two points. *)
Definition shortRoute : list RoutePoint :=
  [mkRoutePoint PosPoint.origin 1 0;
   mkRoutePoint (PosPoint.mk 10 5 0 90) 2 0].

End MavsdkRequests.

(** * Properties *)

(** ** The curvature laws of [TruckState] *)

Section TruckCurvature.

Import TruckState.

Variable vehiclePos : PosPoint.t.

Lemma l2_pos : 0 < l2.
Proof. unfold l2. lra. Qed.

Lemma distanceSquared_zero_iff (p : QPointF.t) :
  distanceSquared p = 0 <-> QPointF.x p = 0 /\ QPointF.y p = 0.
Proof.
  unfold distanceSquared. split.
  - intros H. split; nra.
  - intros [Hx Hy]. rewrite Hx, Hy. ring.
Qed.

(** The named intermediate values are those of the function body. *)
Lemma getCurvatureWithTrailer_forward (s : t) (p : QPointF.t) :
  0 < getSpeed s ->
  getCurvatureWithTrailer vehiclePos s p
  = 1 * (getTrailerAngleRadians s - desiredHitchForward vehiclePos p)
    - sin (getTrailerAngleRadians s) / l2.
Proof.
  intros Hv. unfold getCurvatureWithTrailer.
  destruct (Rlt_dec 0 (getSpeed s)) as [_ | Hn]; [reflexivity | contradiction].
Qed.

Lemma getCurvatureWithTrailer_reverse (s : t) (p : QPointF.t) :
  ~ 0 < getSpeed s ->
  getCurvatureWithTrailer vehiclePos s p
  = - (5 / 2) * (getTrailerAngleRadians s - desiredHitchReverse vehiclePos s p)
    - sin (getTrailerAngleRadians s) / l2.
Proof.
  intros Hv. unfold getCurvatureWithTrailer.
  destruct (Rlt_dec 0 (getSpeed s)) as [Hp | _]; [contradiction | reflexivity].
Qed.

Lemma desiredHitch_radius_one (L theta_err : R) :
  desiredHitch L 1 theta_err = atan (2 * L * sin theta_err).
Proof. unfold desiredHitch. f_equal. field. Qed.

(** C1. Without a trailer and for a goal [(x, y)] other than the origin,
    [getCurvatureToPointInVehicleFrame] returns [- (2*y / (x^2 + y^2))],
    and the divisor [x^2 + y^2] vanishes at the origin and nowhere else. *)
Theorem curvature_pure_pursuit (s : t) (p : QPointF.t) :
  mHasTrailer s = false ->
  (QPointF.x p, QPointF.y p) <> (0, 0) ->
  getCurvatureToPointInVehicleFrame vehiclePos s p
  = - (2 * QPointF.y p / (QPointF.x p ^ 2 + QPointF.y p ^ 2))
  /\ distanceSquared p <> 0
  /\ (forall q : QPointF.t,
        distanceSquared q = 0 <-> (QPointF.x q, QPointF.y q) = (0, 0)).
Proof.
  intros Hno Hp. split; [| split].
  - unfold getCurvatureToPointInVehicleFrame. rewrite Hno. reflexivity.
  - intros H0. apply distanceSquared_zero_iff in H0 as [Hx Hy].
    apply Hp. now rewrite Hx, Hy.
  - intros q. rewrite distanceSquared_zero_iff. split.
    + intros [Hx Hy]. now rewrite Hx, Hy.
    + intros H. now inversion H.
Qed.

(** C2. With a trailer and a speed above zero the commanded curvature is
    [k*(measuredHitch - desiredHitch) - sin(measuredHitch)/L] with [k = 1],
    [L] the trailer wheelbase, [desiredHitch = atan(2*L*sin(theta_err))]
    (the law at radius 1) and [theta_err] the bearing of the goal from the
    vehicle's position minus the vehicle's heading. *)
Theorem curvature_trailer_forward (s : t) (p : QPointF.t) :
  mHasTrailer s = true ->
  0 < getSpeed s ->
  let measuredHitch := getTrailerAngleRadians s in
  let theta_err := bearingFromVehicle vehiclePos p - vehicleHeading vehiclePos in
  let desired := atan (2 * l2 * sin theta_err) in
  getCurvatureToPointInVehicleFrame vehiclePos s p
  = 1 * (measuredHitch - desired) - sin measuredHitch / l2
  /\ getCurvatureToPointInVehicleFrame vehiclePos s p
     = trailerLaw 1 l2 1 measuredHitch theta_err.
Proof.
  intros Htr Hv measuredHitch theta_err desired.
  assert (E : getCurvatureToPointInVehicleFrame vehiclePos s p
              = 1 * (measuredHitch - desired) - sin measuredHitch / l2).
  { unfold getCurvatureToPointInVehicleFrame. rewrite Htr.
    now rewrite getCurvatureWithTrailer_forward. }
  split; [exact E |].
  rewrite E. unfold trailerLaw. now rewrite desiredHitch_radius_one.
Qed.

(** C3. With a trailer and a speed below zero the commanded curvature is
    [k*(measuredHitch - desiredHitch) - sin(measuredHitch)/L] with
    [k = -2.5], [desiredHitch = atan(2*L*sin(theta_err) / R)], [R] the
    autopilot (pursuit) radius, which divides and so is not zero, and
    [theta_err] the bearing of the goal from the trailer's position minus
    the trailer's heading; the trailer's heading is the vehicle's minus the
    measured hitch angle and its position lies [L] behind the vehicle along
    that heading. *)
Theorem curvature_trailer_reverse (s : t) (p : QPointF.t) :
  mHasTrailer s = true ->
  getSpeed s < 0 ->
  getAutopilotRadius s <> 0 ->
  let measuredHitch := getTrailerAngleRadians s in
  let heading := vehicleHeading vehiclePos - measuredHitch in
  let tx := PosPoint.getX vehiclePos - l2 * cos heading in
  let ty := PosPoint.getY vehiclePos - l2 * sin heading in
  let theta_err :=
    Libm.atan2 (QPointF.y p - ty) (QPointF.x p - tx) - heading in
  let desired := atan (2 * l2 * sin theta_err / getAutopilotRadius s) in
  getCurvatureToPointInVehicleFrame vehiclePos s p
  = - (5 / 2) * (measuredHitch - desired) - sin measuredHitch / l2
  /\ getCurvatureToPointInVehicleFrame vehiclePos s p
     = trailerLaw (- (5 / 2)) l2 (getAutopilotRadius s) measuredHitch theta_err.
Proof.
  intros Htr Hv _ measuredHitch heading tx ty theta_err desired.
  assert (E : getCurvatureToPointInVehicleFrame vehiclePos s p
              = - (5 / 2) * (measuredHitch - desired) - sin measuredHitch / l2).
  { unfold getCurvatureToPointInVehicleFrame. rewrite Htr.
    rewrite getCurvatureWithTrailer_reverse by lra. reflexivity. }
  split; [exact E | rewrite E; reflexivity].
Qed.

(** C5, as amended. Without a trailer, for a goal on the forward axis
    ([y = 0], [x > 0]) [getCurvatureToPointInVehicleFrame] returns 0. *)
Theorem curvature_zero_on_forward_axis (s : t) (p : QPointF.t) :
  mHasTrailer s = false ->
  QPointF.y p = 0 ->
  0 < QPointF.x p ->
  getCurvatureToPointInVehicleFrame vehiclePos s p = 0.
Proof.
  intros Hno Hy Hx.
  unfold getCurvatureToPointInVehicleFrame. rewrite Hno, Hy. cbv zeta.
  unfold Rdiv. ring.
Qed.

(** C6. [getCurvatureWithTrailer] takes the forward law exactly when the
    speed is above zero; at speed zero and at every negative speed it takes
    the reverse law: bearing error in the trailer's frame, gain -2.5 and
    the autopilot radius, not zero, dividing inside the desired hitch
    angle. *)
Theorem trailer_branch_selection (s : t) (p : QPointF.t) :
  let measuredHitch := getTrailerAngleRadians s in
  (0 < getSpeed s ->
   getCurvatureWithTrailer vehiclePos s p
   = trailerLaw 1 l2 1 measuredHitch (thetaErrForward vehiclePos p))
  /\ (getSpeed s <= 0 ->
      getAutopilotRadius s <> 0 ->
      getCurvatureWithTrailer vehiclePos s p
      = - (5 / 2)
        * (measuredHitch
           - atan (2 * l2 * sin (bearingFromTrailer vehiclePos measuredHitch p
                                 - trailerHeading vehiclePos measuredHitch)
                   / getAutopilotRadius s))
        - sin measuredHitch / l2).
Proof.
  intros measuredHitch. split.
  - intros Hv. rewrite getCurvatureWithTrailer_forward by exact Hv.
    unfold trailerLaw. rewrite desiredHitch_radius_one. reflexivity.
  - intros Hv _. rewrite getCurvatureWithTrailer_reverse by lra. reflexivity.
Qed.

End TruckCurvature.

(** ** The trailer law as the bearing error vanishes *)

Section TrailerLimit.

Import TruckState.

Lemma continuity_pt_atan (x : R) : continuity_pt atan x.
Proof. apply derivable_continuous_pt, derivable_pt_atan. Qed.

(** [atan (c * sin theta)] is continuous in [theta]. *)
Lemma continuity_pt_atan_scaled_sin (c x : R) :
  continuity_pt (fun theta => atan (c * sin theta)) x.
Proof.
  apply (continuity_pt_comp (fun theta => c * sin theta) atan).
  - apply (continuity_pt_scal sin c), continuity_sin.
  - apply continuity_pt_atan.
Qed.

(** A function continuous at 0, read along the bearing error, tends to its
    value at 0. *)
Lemma tendsTo_of_continuity (G : R -> R) (err : QPointF.t -> R) :
  continuity_pt G 0 ->
  tendsToAsErrVanishes err (fun p => G (err p)) (G 0).
Proof.
  intros HG eps Heps.
  destruct (HG eps Heps) as [delta [Hdelta Hclose]].
  exists delta. split; [exact Hdelta |].
  intros p [Hne Hlt].
  apply (Hclose (err p)). split.
  - split; [exact I |].
    intros E. rewrite <- E, Rabs_R0 in Hne. lra.
  - simpl. unfold Rdist. now rewrite Rminus_0_r.
Qed.

Lemma tendsTo_ext (err f g : QPointF.t -> R) (l : R) :
  (forall p, f p = g p) ->
  tendsToAsErrVanishes err f l -> tendsToAsErrVanishes err g l.
Proof.
  intros E H eps Heps.
  destruct (H eps Heps) as [delta [Hdelta Hclose]].
  exists delta. split; [exact Hdelta |].
  intros p Hp. rewrite <- E. now apply Hclose.
Qed.

(** If the desired hitch angle tends to 0, the law
    [k * (m - desired) - c] tends to [k * m - c]. *)
Lemma tendsTo_law (err d : QPointF.t -> R) (k m c : R) :
  tendsToAsErrVanishes err d 0 ->
  tendsToAsErrVanishes err (fun p => k * (m - d p) - c) (k * m - c).
Proof.
  intros H eps Heps.
  assert (Hk : 0 < Rabs k + 1) by (pose proof (Rabs_pos k); lra).
  destruct (H (eps / (Rabs k + 1))) as [delta [Hdelta Hclose]].
  { now apply Rdiv_lt_0_compat. }
  exists delta. split; [exact Hdelta |].
  intros p Hp. specialize (Hclose p Hp).
  replace (k * (m - d p) - c - (k * m - c)) with (- k * (d p - 0)) by ring.
  rewrite Rabs_mult, Rabs_Ropp.
  pose proof (Rabs_pos k) as Hk0.
  pose proof (Rabs_pos (d p - 0)) as Hd0.
  assert (Hb : Rabs (d p - 0) * (Rabs k + 1) < eps).
  { apply (Rmult_lt_compat_r (Rabs k + 1)) in Hclose; [| exact Hk].
    unfold Rdiv in Hclose. rewrite Rmult_assoc, Rinv_l in Hclose by lra.
    lra. }
  nra.
Qed.

(** A limit along the bearing error is unique as soon as goals of
    arbitrarily small, non-zero bearing error exist. *)
Lemma tendsTo_unique (err f : QPointF.t -> R) (l l' : R) :
  (forall delta, 0 < delta -> exists p, 0 < Rabs (err p) < delta) ->
  tendsToAsErrVanishes err f l ->
  tendsToAsErrVanishes err f l' ->
  l = l'.
Proof.
  intros Hdense H H'.
  destruct (Req_dec l l') as [E | Hne]; [exact E | exfalso].
  assert (Hgap : 0 < Rabs (l - l') / 2).
  { assert (0 < Rabs (l - l')) by (apply Rabs_pos_lt; lra). lra. }
  destruct (H _ Hgap) as [d1 [Hd1 H1]].
  destruct (H' _ Hgap) as [d2 [Hd2 H2]].
  destruct (Hdense (Rmin d1 d2)) as [p [Hp0 Hp]].
  { now apply Rmin_pos. }
  assert (A1 : Rabs (f p - l) < Rabs (l - l') / 2).
  { apply H1. split; [exact Hp0 |].
    eapply Rlt_le_trans; [exact Hp | apply Rmin_l]. }
  assert (A2 : Rabs (f p - l') < Rabs (l - l') / 2).
  { apply H2. split; [exact Hp0 |].
    eapply Rlt_le_trans; [exact Hp | apply Rmin_r]. }
  assert (T : Rabs (l - l') <= Rabs (f p - l) + Rabs (f p - l')).
  { replace (l - l') with ((f p - l') - (f p - l)) by ring.
    eapply Rle_trans; [apply Rabs_triang |].
    rewrite Rabs_Ropp. lra. }
  lra.
Qed.

Lemma atan2_right_half_plane (y x : R) :
  0 < x -> Libm.atan2 y x = atan (y / x).
Proof.
  intros Hx. unfold Libm.atan2.
  destruct (Rlt_dec 0 x) as [_ | Hn]; [reflexivity | contradiction].
Qed.

(** Seen from the origin pose, the goal [(cos a, sin a)] has bearing error
    [a], for every [a] strictly between [-PI/2] and [PI/2]. *)
Lemma thetaErrForward_on_unit_circle (a : R) :
  - (PI / 2) < a < PI / 2 ->
  thetaErrForward PosPoint.origin (QPointF.mk (cos a) (sin a)) = a.
Proof.
  intros Ha.
  unfold thetaErrForward, bearingFromVehicle, vehicleHeading. simpl.
  assert (Hc : 0 < cos a) by (apply cos_gt_0; lra).
  rewrite atan2_right_half_plane by lra.
  replace ((sin a - 0) / (cos a - 0)) with (tan a)
    by (unfold tan; field; lra).
  rewrite atan_tan by exact Ha. lra.
Qed.

Lemma small_bearing_errors_exist (delta : R) :
  0 < delta ->
  exists p, 0 < Rabs (thetaErrForward PosPoint.origin p) < delta.
Proof.
  intros Hdelta.
  pose proof PI2_1 as Hpi.
  set (a := Rmin delta 1 / 2).
  assert (Ha : 0 < a <= 1 / 2 /\ a < delta).
  { unfold a. pose proof (Rmin_l delta 1). pose proof (Rmin_r delta 1).
    assert (0 < Rmin delta 1) by (apply Rmin_pos; lra). lra. }
  exists (QPointF.mk (cos a) (sin a)).
  rewrite thetaErrForward_on_unit_circle by lra.
  rewrite Rabs_pos_eq by lra. lra.
Qed.

Variable vehiclePos : PosPoint.t.

Lemma desiredHitchForward_vanishes :
  tendsToAsErrVanishes (thetaErrForward vehiclePos)
                       (desiredHitchForward vehiclePos) 0.
Proof.
  pose proof (tendsTo_of_continuity (fun theta => atan (2 * l2 * sin theta))
                (thetaErrForward vehiclePos)
                (continuity_pt_atan_scaled_sin (2 * l2) 0)) as H.
  cbv beta in H. rewrite sin_0, Rmult_0_r, atan_0 in H. exact H.
Qed.

Lemma desiredHitchReverse_vanishes (s : t) :
  tendsToAsErrVanishes (thetaErrReverse vehiclePos (getTrailerAngleRadians s))
                       (desiredHitchReverse vehiclePos s) 0.
Proof.
  pose proof (tendsTo_of_continuity
                (fun theta => atan (2 * l2 / getAutopilotRadius s * sin theta))
                (thetaErrReverse vehiclePos (getTrailerAngleRadians s))
                (continuity_pt_atan_scaled_sin _ 0)) as H.
  cbv beta in H. rewrite sin_0, Rmult_0_r, atan_0 in H.
  eapply tendsTo_ext; [| exact H].
  intros p. unfold desiredHitchReverse. f_equal. unfold Rdiv. ring.
Qed.

Lemma curvatureForward_limit (s : t) :
  0 < getSpeed s ->
  tendsToAsErrVanishes (thetaErrForward vehiclePos)
    (getCurvatureWithTrailer vehiclePos s)
    (1 * getTrailerAngleRadians s - sin (getTrailerAngleRadians s) / l2).
Proof.
  intros Hv.
  eapply tendsTo_ext;
    [| apply tendsTo_law, desiredHitchForward_vanishes ].
  intros p. cbv beta.
  now rewrite (getCurvatureWithTrailer_forward vehiclePos s p Hv).
Qed.

Lemma curvatureReverse_limit (s : t) :
  ~ 0 < getSpeed s ->
  tendsToAsErrVanishes (thetaErrReverse vehiclePos (getTrailerAngleRadians s))
    (getCurvatureWithTrailer vehiclePos s)
    (- (5 / 2) * getTrailerAngleRadians s - sin (getTrailerAngleRadians s) / l2).
Proof.
  intros Hv.
  eapply tendsTo_ext;
    [| apply tendsTo_law, (desiredHitchReverse_vanishes s) ].
  intros p. cbv beta.
  now rewrite (getCurvatureWithTrailer_reverse vehiclePos s p Hv).
Qed.

End TrailerLimit.

Section TrailerLimitTheorems.

Import TruckState.

(** C4, as amended. In both branches of the trailer law, for every measured
    hitch angle, the desired hitch angle tends to 0 as the bearing error
    tends to 0, and the commanded curvature tends to
    [k*measuredHitch - sin(measuredHitch)/L] ([k = 1] forward, [k = -2.5] in
    reverse, where the autopilot radius divides and so is taken non-zero),
    which is also the value at a bearing error of exactly 0: the bearing
    error contributes nothing, the hitch term [k*measuredHitch] stays, and
    the limit is [- sin(measuredHitch)/L] only for a measured hitch angle
    of 0. *)
Theorem trailer_law_limit (vehiclePos : PosPoint.t) (s : t) :
  let m := getTrailerAngleRadians s in
  (0 < getSpeed s ->
   tendsToAsErrVanishes (thetaErrForward vehiclePos)
                        (desiredHitchForward vehiclePos) 0
   /\ tendsToAsErrVanishes (thetaErrForward vehiclePos)
                           (getCurvatureWithTrailer vehiclePos s)
                           (1 * m - sin m / l2)
   /\ (forall p, thetaErrForward vehiclePos p = 0 ->
                 getCurvatureWithTrailer vehiclePos s p = 1 * m - sin m / l2))
  /\ (getSpeed s <= 0 ->
      getAutopilotRadius s <> 0 ->
      tendsToAsErrVanishes (thetaErrReverse vehiclePos m)
                           (desiredHitchReverse vehiclePos s) 0
      /\ tendsToAsErrVanishes (thetaErrReverse vehiclePos m)
                              (getCurvatureWithTrailer vehiclePos s)
                              (- (5 / 2) * m - sin m / l2)
      /\ (forall p, thetaErrReverse vehiclePos m p = 0 ->
                    getCurvatureWithTrailer vehiclePos s p
                    = - (5 / 2) * m - sin m / l2))
  /\ (forall k : R, k <> 0 -> (k * m - sin m / l2 = - sin m / l2 <-> m = 0)).
Proof.
  intros m. split; [| split].
  - intros Hv. split; [| split].
    + apply desiredHitchForward_vanishes.
    + now apply curvatureForward_limit.
    + intros p Hp.
      rewrite (getCurvatureWithTrailer_forward vehiclePos s p Hv).
      unfold desiredHitchForward.
      rewrite Hp, sin_0, Rmult_0_r, atan_0. fold m. ring.
  - intros Hv _. split; [| split].
    + apply desiredHitchReverse_vanishes.
    + apply curvatureReverse_limit. lra.
    + intros p Hp.
      rewrite (getCurvatureWithTrailer_reverse vehiclePos s p) by lra.
      unfold desiredHitchReverse. fold m.
      rewrite Hp, sin_0, Rmult_0_r.
      replace (0 / getAutopilotRadius s) with 0 by (unfold Rdiv; ring).
      rewrite atan_0. ring.
  - intros k Hk. split.
    + intros E. assert (Hz : k * m = 0) by (unfold Rdiv in *; lra).
      apply Rmult_integral in Hz. tauto.
    + intros ->. unfold Rdiv. ring.
Qed.

Lemma trailer_law_limit_witness :
  0 < getSpeed hitchedTruck
  /\ tendsToAsErrVanishes (thetaErrForward PosPoint.origin)
       (getCurvatureWithTrailer PosPoint.origin hitchedTruck)
       (1 * (PI / 6) - sin (PI / 6) / l2)
  /\ getSpeed standingTruck <= 0
  /\ getAutopilotRadius standingTruck <> 0
  /\ tendsToAsErrVanishes (thetaErrReverse PosPoint.origin (PI / 6))
       (getCurvatureWithTrailer PosPoint.origin standingTruck)
       (- (5 / 2) * (PI / 6) - sin (PI / 6) / l2).
Proof.
  assert (H1 : 0 < getSpeed hitchedTruck) by (simpl; lra).
  assert (H2 : getSpeed standingTruck <= 0) by (simpl; lra).
  assert (H3 : getAutopilotRadius standingTruck <> 0) by (simpl; lra).
  split; [exact H1 |]. split.
  - exact (proj1 (proj2 (proj1 (trailer_law_limit PosPoint.origin hitchedTruck)
                               H1))).
  - split; [exact H2 |]. split; [exact H3 |].
    exact (proj1 (proj2 (proj1 (proj2 (trailer_law_limit PosPoint.origin
                                                         standingTruck))
                               H2 H3))).
Defined.

(** C4 as stated fails: for the truck at a hitch angle of 30 degrees driving
    forward, the commanded curvature does not tend to
    [- sin(measuredHitch)/L] as the bearing error tends to 0. *)
Lemma trailer_limit_is_not_minus_sin :
  getTrailerAngleRadians hitchedTruck = PI / 6
  /\ 0 < getSpeed hitchedTruck
  /\ ~ tendsToAsErrVanishes (thetaErrForward PosPoint.origin)
         (getCurvatureWithTrailer PosPoint.origin hitchedTruck)
         (- sin (PI / 6) / l2).
Proof.
  split; [reflexivity |]. split; [simpl; lra |].
  intros Hclaim.
  assert (Hv : 0 < getSpeed hitchedTruck) by (simpl; lra).
  pose proof (curvatureForward_limit PosPoint.origin hitchedTruck Hv) as Hlim.
  pose proof (tendsTo_unique _ _ _ _ small_bearing_errors_exist Hlim Hclaim) as E.
  simpl in E. pose proof PI_RGT_0. unfold Rdiv in E. lra.
Qed.

(** C5 as stated fails with a trailer attached: for the truck at a hitch
    angle of 30 degrees driving forward, the goal one metre straight ahead
    gets a curvature other than 0. *)
Lemma curvature_on_forward_axis_with_trailer :
  QPointF.y goalAhead = 0
  /\ 0 < QPointF.x goalAhead
  /\ getCurvatureToPointInVehicleFrame PosPoint.origin hitchedTruck goalAhead <> 0.
Proof.
  split; [reflexivity |]. split; [simpl; lra |].
  assert (Hv : 0 < getSpeed hitchedTruck) by (simpl; lra).
  unfold getCurvatureToPointInVehicleFrame.
  change (mHasTrailer hitchedTruck) with true. cbv iota.
  rewrite (getCurvatureWithTrailer_forward PosPoint.origin hitchedTruck goalAhead Hv).
  assert (Hth : thetaErrForward PosPoint.origin goalAhead = 0).
  { unfold goalAhead. rewrite <- cos_0 at 1. rewrite <- sin_0 at 2.
    apply thetaErrForward_on_unit_circle. pose proof PI_RGT_0. lra. }
  unfold desiredHitchForward. rewrite Hth, sin_0, Rmult_0_r, atan_0.
  change (getTrailerAngleRadians hitchedTruck) with (PI / 6).
  rewrite sin_PI6. unfold l2.
  pose proof PI_4. lra.
Qed.

End TrailerLimitTheorems.

(** ** Concrete instances of the curvature theorems *)

Section TruckWitnesses.

Import TruckState.

Lemma curvature_pure_pursuit_witness :
  mHasTrailer soloTruck = false
  /\ (QPointF.x goalLeft, QPointF.y goalLeft) <> (0, 0)
  /\ getCurvatureToPointInVehicleFrame PosPoint.origin soloTruck goalLeft
     = - (2 * 1 / (1 ^ 2 + 1 ^ 2)).
Proof.
  assert (H1 : mHasTrailer soloTruck = false) by reflexivity.
  assert (H2 : (QPointF.x goalLeft, QPointF.y goalLeft) <> (0, 0)).
  { simpl. intros E. inversion E. lra. }
  split; [exact H1 |]. split; [exact H2 |].
  exact (proj1 (curvature_pure_pursuit PosPoint.origin soloTruck goalLeft H1 H2)).
Defined.

Lemma curvature_trailer_forward_witness :
  mHasTrailer hitchedTruck = true
  /\ 0 < getSpeed hitchedTruck
  /\ getCurvatureToPointInVehicleFrame PosPoint.origin hitchedTruck goalLeft
     = trailerLaw 1 l2 1 (PI / 6)
         (bearingFromVehicle PosPoint.origin goalLeft
          - vehicleHeading PosPoint.origin).
Proof.
  assert (H1 : mHasTrailer hitchedTruck = true) by reflexivity.
  assert (H2 : 0 < getSpeed hitchedTruck) by (simpl; lra).
  split; [exact H1 |]. split; [exact H2 |].
  exact (proj2 (curvature_trailer_forward PosPoint.origin hitchedTruck goalLeft H1 H2)).
Defined.

Lemma curvature_trailer_reverse_witness :
  mHasTrailer reversingTruck = true
  /\ getSpeed reversingTruck < 0
  /\ getAutopilotRadius reversingTruck <> 0
  /\ getCurvatureToPointInVehicleFrame PosPoint.origin reversingTruck goalLeft
     = trailerLaw (- (5 / 2)) l2 1 (PI / 6)
         (thetaErrReverse PosPoint.origin (PI / 6) goalLeft).
Proof.
  assert (H1 : mHasTrailer reversingTruck = true) by reflexivity.
  assert (H2 : getSpeed reversingTruck < 0) by (simpl; lra).
  assert (H3 : getAutopilotRadius reversingTruck <> 0) by (simpl; lra).
  split; [exact H1 |]. split; [exact H2 |]. split; [exact H3 |].
  exact (proj2 (curvature_trailer_reverse PosPoint.origin reversingTruck goalLeft
                                          H1 H2 H3)).
Defined.

Lemma curvature_zero_on_forward_axis_witness :
  mHasTrailer soloTruck = false
  /\ QPointF.y goalAhead = 0
  /\ 0 < QPointF.x goalAhead
  /\ getCurvatureToPointInVehicleFrame PosPoint.origin soloTruck goalAhead = 0.
Proof.
  assert (H1 : mHasTrailer soloTruck = false) by reflexivity.
  assert (H2 : QPointF.y goalAhead = 0) by reflexivity.
  assert (H3 : 0 < QPointF.x goalAhead) by (simpl; lra).
  split; [exact H1 |]. split; [exact H2 |]. split; [exact H3 |].
  exact (curvature_zero_on_forward_axis PosPoint.origin soloTruck goalAhead H1 H2 H3).
Defined.

Lemma trailer_branch_selection_witness :
  getSpeed standingTruck <= 0
  /\ getAutopilotRadius standingTruck <> 0
  /\ getCurvatureWithTrailer PosPoint.origin standingTruck goalLeft
     = - (5 / 2)
       * (PI / 6
          - atan (2 * l2 * sin (bearingFromTrailer PosPoint.origin (PI / 6) goalLeft
                                - trailerHeading PosPoint.origin (PI / 6))
                  / 1))
       - sin (PI / 6) / l2.
Proof.
  assert (H1 : getSpeed standingTruck <= 0) by (simpl; lra).
  assert (H2 : getAutopilotRadius standingTruck <> 0) by (simpl; lra).
  split; [exact H1 |]. split; [exact H2 |].
  exact (proj2 (trailer_branch_selection PosPoint.origin standingTruck goalLeft)
               H1 H2).
Defined.

(** The sign convention on a concrete goal: one metre ahead and one metre to
    the left gives curvature -1. *)
Example curvature_goalLeft :
  getCurvatureToPointInVehicleFrame PosPoint.origin soloTruck goalLeft = -1.
Proof.
  unfold getCurvatureToPointInVehicleFrame. simpl. field.
Qed.

Example atan2_diagonal : Libm.atan2 1 1 = PI / 4.
Proof.
  rewrite atan2_right_half_plane by lra.
  replace (1 / 1) with 1 by field. apply atan_1.
Qed.

Example atan2_straight_left : Libm.atan2 1 0 = PI / 2.
Proof.
  unfold Libm.atan2.
  destruct (Rlt_dec 0 0) as [H | _]; [lra |].
  destruct (Rlt_dec 0 1) as [_ | H]; [reflexivity | lra].
Qed.

Example atan2_straight_back : Libm.atan2 0 (-1) = PI.
Proof.
  unfold Libm.atan2.
  destruct (Rlt_dec 0 (-1)) as [H | _]; [lra |].
  destruct (Rlt_dec (-1) 0) as [_ | H]; [| lra].
  destruct (Rle_dec 0 0) as [_ | H]; [| lra].
  replace (0 / -1) with 0 by field. rewrite atan_0. ring.
Qed.

End TruckWitnesses.

(** ** The follower: constructed values and configuration *)

Section FollowerFacts.

Import Follower.

(** C7. A freshly constructed follower state is in NONE, has pursuit radius
    1.0 (above zero), lookahead count 8 (at least 1) and its follow-point
    staleness flag set. *)
Theorem constructed_state_defaults (defaultPose : PosPoint.t) (indeterminate : Z) :
  let st := constructState defaultPose indeterminate in
  stmState st = NONE
  /\ purePursuitRadius st = 1 /\ 0 < purePursuitRadius st
  /\ numWaypointsLookahead st = 8%Z /\ (1 <= numWaypointsLookahead st)%Z
  /\ followPointTimedOut st = true.
Proof.
  cbn. repeat split; (reflexivity || lra || lia).
Qed.

Variable PosType : Type.
Variable fused : PosType.

(** C9. The period of the state-machine timer is 50 ms after construction
    and the follow-point timeout is 1000 ms. *)
Theorem timer_defaults (defaultPose : PosPoint.t) (indeterminate : Z)
        (onVehicle : bool) :
  mUpdateStatePeriod_ms
    (constructFollower PosType fused defaultPose indeterminate onVehicle) = 50%Z
  /\ mFollowPointTimeout_ms = 1000%Z.
Proof. split; reflexivity. Qed.

Lemma run_keeps_unset_options (op : PublicOperation PosType)
      (f : PurepursuitWaypointFollower PosType) :
  numWaypointsLookahead (mCurrentState (run op f))
  = numWaypointsLookahead (mCurrentState f)
  /\ followPointDistance (mCurrentState (run op f))
     = followPointDistance (mCurrentState f)
  /\ mUpdateStatePeriod_ms (run op f) = mUpdateStatePeriod_ms f.
Proof.
  destruct op; cbn; try (repeat split; reflexivity).
  - destruct (Rlt_dec 0 value); repeat split; reflexivity.
  - destruct (followingRoute (stmState (mCurrentState f)));
      repeat split; reflexivity.
  - destruct (mWaypointList f); repeat split; reflexivity.
Qed.

(** C8, as amended. Three of the seven options have a public operation that
    sets them to any value satisfying the constraint: pursuitRadius,
    repeatRoute and followPointSpeed.  The other four have none:
    no public operation changes numWaypointsLookahead, followPointDistance
    or the tick period, and the follow-point timeout is the constant
    1000 ms. *)
Theorem recognized_options :
  (forall meters, 0 < meters -> settable PosType (pursuitRadius meters))
  /\ (forall b, settable PosType (repeatRouteOpt b))
  /\ (forall mps, 0 <= mps -> settable PosType (followPointSpeedOpt mps))
  /\ (forall (op : PublicOperation PosType) f,
        numWaypointsLookahead (mCurrentState (run op f))
        = numWaypointsLookahead (mCurrentState f)
        /\ followPointDistance (mCurrentState (run op f))
           = followPointDistance (mCurrentState f)
        /\ mUpdateStatePeriod_ms (run op f) = mUpdateStatePeriod_ms f)
  /\ (forall (op : PublicOperation PosType) f n,
        configured (followPointTimeoutMs n) (run op f) <-> n = 1000%Z).
Proof.
  split; [| split; [| split; [| split]]].
  - intros meters Hpos. exists (op_setPurePursuitRadius PosType meters).
    intros f. cbn. destruct (Rlt_dec 0 meters); [reflexivity | contradiction].
  - intros b. exists (op_setRepeatRoute PosType b). intros f. reflexivity.
  - intros mps _. exists (op_setFollowPointSpeed PosType mps).
    intros f. reflexivity.
  - apply run_keeps_unset_options.
  - intros op f n. cbn. unfold mFollowPointTimeout_ms. split; congruence.
Qed.

End FollowerFacts.

Lemma recognized_options_witness :
  0 < 2
  /\ Follower.settable unit (Follower.pursuitRadius 2)
  /\ 0 <= 0
  /\ Follower.settable unit (Follower.followPointSpeedOpt 0).
Proof.
  assert (H1 : 0 < 2) by lra.
  assert (H2 : 0 <= 0) by lra.
  split; [exact H1 |]. split.
  - exact (proj1 (recognized_options unit) 2 H1).
  - split; [exact H2 |].
    exact (proj1 (proj2 (proj2 (recognized_options unit))) 0 H2).
Defined.

(** C8 as stated fails: a follow-point timeout of 2000 ms satisfies the
    constraint of the option, and no public operation sets it. *)
Lemma timeout_is_not_settable :
  Follower.constraint (Follower.followPointTimeoutMs 2000)
  /\ ~ Follower.settable unit (Follower.followPointTimeoutMs 2000).
Proof.
  split.
  - cbn. lia.
  - intros [op H].
    specialize (H (Follower.constructFollower unit tt PosPoint.origin 0 true)).
    cbn in H. unfold Follower.mFollowPointTimeout_ms in H. discriminate H.
Qed.

(** ** [setHomeLlh] *)

Section SetHome.

Import MavsdkVehicleConnection.

Variable llhToEnu : llh_t -> llh_t -> xyz_t.
Variable send_command_long : CommandLong -> Result.

Lemma Result_eqb_Success (r : Result) : Result_eqb r Success = true <-> r = Success.
Proof. destruct r; cbn; split; intros H; (reflexivity || discriminate). Qed.

(** C10. When sending MAV_CMD_DO_SET_HOME does not report success,
    [setHomeLlh] returns with the connection, and so the stored home
    position, as it was; a call that changes the connection is one whose
    send reported success, and then the stored home position is the ENU
    image of the requested home. *)
Theorem setHomeLlh_updates_only_on_success (c : t) (homeLlh : llh_t) :
  (send_command_long (homeCommand c homeLlh) <> Success ->
   setHomeLlh llhToEnu send_command_long c homeLlh = Some c)
  /\ (forall c' : t,
        setHomeLlh llhToEnu send_command_long c homeLlh = Some c' ->
        c' <> c ->
        send_command_long (homeCommand c homeLlh) = Success
        /\ exists v v',
            mVehicleState c = Some v /\ mVehicleState c' = Some v'
            /\ PosPoint.getX (getHomePosition v')
               = x (llhToEnu (mEnuReference c) homeLlh)
            /\ PosPoint.getY (getHomePosition v')
               = y (llhToEnu (mEnuReference c) homeLlh)
            /\ PosPoint.getHeight (getHomePosition v')
               = z (llhToEnu (mEnuReference c) homeLlh)).
Proof.
  unfold setHomeLlh. split.
  - intros Hfail.
    destruct (Result_eqb (send_command_long (homeCommand c homeLlh)) Success) eqn:E.
    + apply Result_eqb_Success in E. contradiction.
    + reflexivity.
  - intros c' Hrun Hchanged.
    destruct (Result_eqb (send_command_long (homeCommand c homeLlh)) Success) eqn:E.
    + apply Result_eqb_Success in E. split; [exact E |].
      destruct (mVehicleState c) as [v |]; [| discriminate Hrun].
      injection Hrun as <-. eexists. eexists.
      split; [reflexivity |]. split; [reflexivity |].
      cbn. repeat split; reflexivity.
    + injection Hrun as <-. now contradiction Hchanged.
Qed.

End SetHome.

Lemma setHomeLlh_updates_only_on_success_witness :
  MavsdkVehicleConnection.timingOutLink
    (MavsdkVehicleConnection.homeCommand
       MavsdkVehicleConnection.roverConnection
       MavsdkVehicleConnection.requestedHome)
  <> MavsdkVehicleConnection.Success
  /\ MavsdkVehicleConnection.setHomeLlh
       MavsdkVehicleConnection.offsetFromReference
       MavsdkVehicleConnection.timingOutLink
       MavsdkVehicleConnection.roverConnection
       MavsdkVehicleConnection.requestedHome
     = Some MavsdkVehicleConnection.roverConnection.
Proof.
  assert (H : MavsdkVehicleConnection.timingOutLink
                (MavsdkVehicleConnection.homeCommand
                   MavsdkVehicleConnection.roverConnection
                   MavsdkVehicleConnection.requestedHome)
              <> MavsdkVehicleConnection.Success).
  { unfold MavsdkVehicleConnection.timingOutLink. discriminate. }
  split; [exact H |].
  exact (proj1 (setHomeLlh_updates_only_on_success
                  MavsdkVehicleConnection.offsetFromReference
                  MavsdkVehicleConnection.timingOutLink
                  MavsdkVehicleConnection.roverConnection
                  MavsdkVehicleConnection.requestedHome) H).
Defined.

(** On an accepting link the same call moves the home to the ENU image of
    the requested position. *)
Example setHomeLlh_on_success :
  option_map
    (fun c => option_map MavsdkVehicleConnection.getHomePosition
                         (MavsdkVehicleConnection.mVehicleState c))
    (MavsdkVehicleConnection.setHomeLlh
       MavsdkVehicleConnection.offsetFromReference
       MavsdkVehicleConnection.acceptingLink
       MavsdkVehicleConnection.roverConnection
       MavsdkVehicleConnection.requestedHome)
  = Some (Some (PosPoint.mk (13 - 12) (58 - 57) (5 - 0) 0)).
Proof. reflexivity. Qed.

(** ** RTCM data over MAVLink: fragmentation *)

Section RtcmFacts.

Import Cast Rtcm.

Variable our_sysid our_compid : Z.

Local Open Scope nat_scope.

Local Abbreviation LEN := MAVLINK_MSG_GPS_RTCM_DATA_FIELD_DATA_LEN.

Local Ltac len_lia := unfold MAVLINK_MSG_GPS_RTCM_DATA_FIELD_DATA_LEN in *; lia.

Lemma uint8_small (z : Z) : (0 <= z < 256)%Z -> uint8 z = z.
Proof. intros H. unfold uint8. now apply Z.mod_small. Qed.

Lemma length_mid (bytes : list Byte.byte) (pos n : nat) :
  length (mid bytes pos n) = Nat.min n (length bytes - pos).
Proof. unfold mid. now rewrite length_firstn, length_skipn. Qed.

Lemma firstn_add_mid (bytes : list Byte.byte) (pos n : nat) :
  firstn (pos + n) bytes = firstn pos bytes ++ mid bytes pos n.
Proof.
  unfold mid. revert bytes. induction pos as [| pos IH]; intros bytes.
  - reflexivity.
  - destruct bytes as [| b bytes].
    + cbn. now rewrite firstn_nil.
    + cbn. now rewrite IH.
Qed.

Lemma firstn_min_length (bytes : list Byte.byte) (n : nat) :
  firstn (Nat.min (length bytes) n) bytes = firstn n bytes.
Proof.
  destruct (Nat.le_gt_cases n (length bytes)) as [H | H].
  - now rewrite Nat.min_r.
  - rewrite Nat.min_l by lia. rewrite firstn_all.
    symmetry. apply firstn_all2. lia.
Qed.

Lemma length_memcpy (dst src : list Byte.byte) :
  length src <= length dst -> length (memcpy dst src) = length dst.
Proof.
  intros H. unfold memcpy. rewrite length_app, length_skipn. lia.
Qed.

Lemma firstn_memcpy (dst src : list Byte.byte) :
  firstn (length src) (memcpy dst src) = src.
Proof.
  unfold memcpy. rewrite firstn_app, Nat.sub_diag, firstn_all. cbn.
  apply app_nil_r.
Qed.

Lemma skipn_repeat_byte (b : Byte.byte) (k n : nat) :
  skipn k (repeat b n) = repeat b (n - k).
Proof.
  revert n. induction k as [| k IH]; intros n.
  - now rewrite Nat.sub_0_r.
  - destruct n as [| n]; [reflexivity | cbn; apply IH].
Qed.

Lemma length_zeroed : length (data zeroed) = LEN.
Proof. apply repeat_length. Qed.

(** What one pass of the loop body adds. *)
Lemma loopBody_carried (sequenceId : Z) (rtcmData : list Byte.byte) (st : LoopState) :
  numBytesProcessed st < length rtcmData ->
  length (data (mavRtcmData st)) = LEN ->
  let flen := Nat.min (length rtcmData - numBytesProcessed st) LEN in
  let st' := loopBody our_sysid our_compid sequenceId rtcmData st in
  exists m,
    sent st' = sent st ++ [m]
    /\ payload m = mavRtcmData st'
    /\ sysid m = our_sysid /\ compid m = our_compid
    /\ len (payload m) = Z.of_nat flen
    /\ carried m = mid rtcmData (numBytesProcessed st) flen
    /\ length (data (payload m)) = LEN
    /\ numBytesProcessed st' = numBytesProcessed st + flen
    /\ 1 <= flen <= LEN.
Proof.
  intros Hp Hbuf flen st'.
  assert (Hflen : 1 <= flen <= LEN) by (unfold flen; len_lia).
  assert (Hmid : length (mid rtcmData (numBytesProcessed st) flen) = flen).
  { rewrite length_mid. unfold flen. lia. }
  assert (Hlen : uint8 (Z.of_nat flen) = Z.of_nat flen).
  { apply uint8_small. len_lia. }
  unfold st', loopBody. fold flen. rewrite Hlen.
  eexists. split; [reflexivity |].
  unfold carried, encode.
  cbn [sent payload mavRtcmData sysid compid len data numBytesProcessed].
  repeat split; try lia.
  - rewrite Nat2Z.id. rewrite <- Hmid at 1. apply firstn_memcpy.
  - rewrite length_memcpy; [exact Hbuf | rewrite Hmid, Hbuf; lia].
Qed.

(** The loop keeps: the bytes carried so far are the bytes processed so
    far, and the buffer keeps its 180 bytes. *)
Lemma whileLoop_carried (fuel : nat) (sequenceId : Z) (rtcmData : list Byte.byte)
      (st : LoopState) :
  length rtcmData <= fuel + numBytesProcessed st ->
  numBytesProcessed st <= length rtcmData ->
  length (data (mavRtcmData st)) = LEN ->
  concat (map carried (sent st)) = firstn (numBytesProcessed st) rtcmData ->
  let st' := whileLoop our_sysid our_compid fuel sequenceId rtcmData st in
  numBytesProcessed st' = length rtcmData
  /\ concat (map carried (sent st')) = rtcmData.
Proof.
  revert st. induction fuel as [| fuel IH]; intros st Hfuel Hle Hbuf Hinv;
    cbn [whileLoop].
  - assert (E : numBytesProcessed st = length rtcmData) by lia.
    split; [exact E |]. rewrite Hinv, E. apply firstn_all.
  - destruct (Nat.ltb_spec (numBytesProcessed st) (length rtcmData)) as [Hlt | Hge].
    + destruct (loopBody_carried sequenceId rtcmData st Hlt Hbuf)
        as [m [Hs [Hpay [_ [_ [_ [Hc [Hb [Hn Hf]]]]]]]]].
      apply IH.
      * lia.
      * lia.
      * now rewrite <- Hpay.
      * rewrite Hs, map_app, concat_app. cbn [map concat]. rewrite app_nil_r.
        rewrite Hinv, Hc, Hn. symmetry. apply firstn_add_mid.
    + assert (E : numBytesProcessed st = length rtcmData) by lia.
      split; [exact E |]. rewrite Hinv, E. apply firstn_all.
Qed.

(** The loop as a whole: after [k] passes, [k] messages are out, the
    fragment counter is [k] modulo 256, [min (180*k) n] bytes are processed,
    and message [i] carries bytes [180*i ..] with the flags of fragment
    [i]. *)
Lemma whileLoop_structure (fuel : nat) (sequenceId : Z) (rtcmData : list Byte.byte)
      (st : LoopState) (k : nat) :
  length rtcmData <= fuel + numBytesProcessed st ->
  length (sent st) = k ->
  fragmentId st = uint8 (Z.of_nat k) ->
  numBytesProcessed st = Nat.min (LEN * k) (length rtcmData) ->
  (k = 0 \/ LEN * (k - 1) < length rtcmData) ->
  length (data (mavRtcmData st)) = LEN ->
  (forall i m, nth_error (sent st) i = Some m ->
     len (payload m) = Z.of_nat (Nat.min (length rtcmData - LEN * i) LEN)
     /\ flags (payload m) = fragmentFlags sequenceId i
     /\ carried m = mid rtcmData (LEN * i) LEN
     /\ length (data (payload m)) = LEN
     /\ sysid m = our_sysid /\ compid m = our_compid) ->
  let st' := whileLoop our_sysid our_compid fuel sequenceId rtcmData st in
  LEN * length (sent st') >= length rtcmData
  /\ (length (sent st') = 0 \/ LEN * (length (sent st') - 1) < length rtcmData)
  /\ (forall i m, nth_error (sent st') i = Some m ->
        len (payload m) = Z.of_nat (Nat.min (length rtcmData - LEN * i) LEN)
        /\ flags (payload m) = fragmentFlags sequenceId i
        /\ carried m = mid rtcmData (LEN * i) LEN
        /\ length (data (payload m)) = LEN
        /\ sysid m = our_sysid /\ compid m = our_compid).
Proof.
  revert st k.
  induction fuel as [| fuel IH]; intros st k Hfuel Hk Hid Hp Hlast Hbuf Hall;
    cbn [whileLoop].
  - split; [| split]; [len_lia | len_lia | exact Hall].
  - destruct (Nat.ltb_spec (numBytesProcessed st) (length rtcmData)) as [Hlt | Hge].
    + destruct (loopBody_carried sequenceId rtcmData st Hlt Hbuf)
        as [m [Hs [Hpay [Hsys [Hcomp [Hlen [Hc [Hb [Hn Hf]]]]]]]]].
      assert (Hpk : numBytesProcessed st = LEN * k) by len_lia.
      apply (IH _ (S k)).
      * lia.
      * rewrite Hs, length_app. cbn. lia.
      * unfold loopBody. cbn [fragmentId]. rewrite Hid.
        unfold uint8. rewrite Zplus_mod_idemp_l. f_equal. lia.
      * rewrite Hn. len_lia.
      * right. len_lia.
      * now rewrite <- Hpay.
      * intros i m' Hi. rewrite Hs in Hi.
        destruct (Nat.lt_ge_cases i k) as [Hik | Hik].
        -- rewrite nth_error_app1 in Hi by lia. now apply Hall.
        -- rewrite nth_error_app2 in Hi by lia.
           assert (E : i = k).
           { destruct (i - length (sent st)) as [| j] eqn:Ej.
             - lia.
             - cbn in Hi. destruct j; discriminate Hi. }
           subst i. rewrite Hk, Nat.sub_diag in Hi. cbn in Hi.
           injection Hi as <-.
           repeat split; try assumption.
           ++ rewrite Hlen, Hpk. reflexivity.
           ++ rewrite Hpay. unfold loopBody. cbn [mavRtcmData flags].
              rewrite Hid. reflexivity.
           ++ rewrite Hc, Hpk. unfold mid.
              rewrite <- (length_skipn (LEN * k) rtcmData).
              apply firstn_min_length.
    + split; [| split]; [len_lia | len_lia | exact Hall].
Qed.

Lemma inputRtcmData_fragmented (sequenceId : Z) (rtcmData : list Byte.byte) :
  LEN <= length rtcmData ->
  fst (inputRtcmData our_sysid our_compid false sequenceId rtcmData)
  = sent (whileLoop our_sysid our_compid (length rtcmData) sequenceId rtcmData
                    (mkLoop 0 0 zeroed [])).
Proof.
  intros H. unfold inputRtcmData. cbn [fst].
  destruct (Nat.ltb_spec (length rtcmData) LEN) as [Hlt | _]; [lia | reflexivity].
Qed.

Lemma inputRtcmData_unfragmented (sequenceId : Z) (rtcmData : list Byte.byte) :
  length rtcmData < LEN ->
  fst (inputRtcmData our_sysid our_compid false sequenceId rtcmData)
  = [encode our_sysid our_compid
       (mkRtcmData (uint8 (Z.shiftl (Z.land sequenceId 31) 3))
                   (Z.of_nat (length rtcmData))
                   (rtcmData ++ repeat Byte.x00 (LEN - length rtcmData)))].
Proof.
  intros H. unfold inputRtcmData. cbn [fst].
  destruct (Nat.ltb_spec (length rtcmData) LEN) as [_ | Hge]; [| lia].
  rewrite (uint8_small (Z.of_nat (length rtcmData))) by len_lia.
  unfold memcpy, zeroed. cbn [data].
  rewrite skipn_repeat_byte. reflexivity.
Qed.

(** X1. Whatever the length of the RTCM data, the bytes carried by the
    messages [inputRtcmData] sends (the first [len] bytes of each [data]
    field), read in the order sent, are the input; for data of 180 bytes or
    more the fragmenting loop has consumed the whole input when it
    stops. *)
Theorem inputRtcmData_reassembles (sequenceId : Z) (rtcmData : list Byte.byte) :
  concat (map carried
              (fst (inputRtcmData our_sysid our_compid false sequenceId rtcmData)))
  = rtcmData
  /\ (LEN <= length rtcmData ->
      numBytesProcessed
        (whileLoop our_sysid our_compid (length rtcmData) sequenceId rtcmData
                   (mkLoop 0 0 zeroed []))
      = length rtcmData).
Proof.
  assert (Hloop := whileLoop_carried (length rtcmData) sequenceId rtcmData
                     (mkLoop 0 0 zeroed [])).
  cbn [numBytesProcessed mavRtcmData sent map concat firstn] in Hloop.
  specialize (Hloop ltac:(lia) ltac:(lia) length_zeroed eq_refl).
  destruct Hloop as [Hdone Hcat].
  split; [| intros _; exact Hdone].
  destruct (Nat.lt_ge_cases (length rtcmData) LEN) as [Hshort | Hlong].
  - rewrite inputRtcmData_unfragmented by exact Hshort.
    cbn [map concat]. unfold carried, encode. cbn [payload len data].
    rewrite Nat2Z.id, app_nil_r, firstn_app, Nat.sub_diag, firstn_all.
    cbn [firstn]. apply app_nil_r.
  - rewrite inputRtcmData_fragmented by exact Hlong. exact Hcat.
Qed.

(** The messages of the fragmented path, as the loop leaves them. *)
Lemma fragmented_structure (sequenceId : Z) (rtcmData : list Byte.byte) :
  LEN <= length rtcmData ->
  let msgs := fst (inputRtcmData our_sysid our_compid false sequenceId rtcmData) in
  LEN * length msgs >= length rtcmData
  /\ LEN * (length msgs - 1) < length rtcmData
  /\ forall i m, nth_error msgs i = Some m ->
       len (payload m) = Z.of_nat (Nat.min (length rtcmData - LEN * i) LEN)
       /\ flags (payload m) = fragmentFlags sequenceId i
       /\ carried m = mid rtcmData (LEN * i) LEN
       /\ length (data (payload m)) = LEN
       /\ sysid m = our_sysid /\ compid m = our_compid.
Proof.
  intros Hlong msgs. unfold msgs.
  rewrite inputRtcmData_fragmented by exact Hlong.
  assert (H := whileLoop_structure (length rtcmData) sequenceId rtcmData
                 (mkLoop 0 0 zeroed []) 0).
  cbn [numBytesProcessed sent fragmentId mavRtcmData length] in H.
  assert (Hnone : forall (i : nat) (m : mavlink_message_t),
             nth_error (@nil mavlink_message_t) i = Some m ->
             len (payload m)
             = Z.of_nat (Nat.min (length rtcmData - LEN * i) LEN)
             /\ flags (payload m) = fragmentFlags sequenceId i
             /\ carried m = mid rtcmData (LEN * i) LEN
             /\ length (data (payload m)) = LEN
             /\ sysid m = our_sysid /\ compid m = our_compid).
  { intros i m Hi. destruct i; discriminate Hi. }
  specialize (H ltac:(lia) eq_refl eq_refl ltac:(rewrite Nat.mul_0_r; reflexivity)
                (or_introl eq_refl) length_zeroed Hnone).
  destruct H as [Hcover [Hlast Hall]].
  split; [exact Hcover |]. split; [| exact Hall].
  destruct Hlast as [Hzero | Hlast]; [| exact Hlast].
  rewrite Hzero in *. len_lia.
Qed.

(** X2. For RTCM data of 180 bytes or more, [inputRtcmData] sends
    [ceil(n/180)] messages; message [i] (from 0) carries the bytes from
    offset [180*i], has [len = min(n - 180*i, 180)], which is between 1 and
    180 and is 180 for every message but the last, and bears the sender's
    ids. *)
Theorem inputRtcmData_fragments (sequenceId : Z) (rtcmData : list Byte.byte) :
  LEN <= length rtcmData ->
  let n := length rtcmData in
  let msgs := fst (inputRtcmData our_sysid our_compid false sequenceId rtcmData) in
  length msgs = (n + 179) / 180
  /\ forall i m, nth_error msgs i = Some m ->
       len (payload m) = Z.of_nat (Nat.min (n - 180 * i) 180)
       /\ (1 <= len (payload m) <= 180)%Z
       /\ (S i < length msgs -> len (payload m) = 180%Z)
       /\ carried m = mid rtcmData (180 * i) 180
       /\ length (data (payload m)) = 180
       /\ flags (payload m) = fragmentFlags sequenceId i
       /\ sysid m = our_sysid /\ compid m = our_compid.
Proof.
  intros Hlong n msgs.
  destruct (fragmented_structure sequenceId rtcmData Hlong)
    as [Hcover [Hlast Hall]].
  fold msgs in Hcover, Hlast, Hall. fold n in Hcover, Hlast, Hall.
  assert (Hcount : length msgs = (n + 179) / 180).
  { apply (Nat.div_unique _ _ _ (n + 179 - 180 * length msgs)); len_lia. }
  split; [exact Hcount |].
  intros i m Hi.
  assert (Hi' : i < length msgs).
  { apply nth_error_Some. rewrite Hi. discriminate. }
  destruct (Hall i m Hi) as [Hlen [Hfl [Hc [Hb [Hsys Hcomp]]]]].
  unfold MAVLINK_MSG_GPS_RTCM_DATA_FIELD_DATA_LEN in *.
  repeat split; try assumption; lia.
Qed.

Lemma byte_range_check (f : Z -> bool) :
  forallb f (map Z.of_nat (seq 0 256)) = true ->
  forall z : Z, (0 <= z < 256)%Z -> f z = true.
Proof.
  intros Hall z Hz. rewrite forallb_forall in Hall. apply Hall.
  apply in_map_iff. exists (Z.to_nat z). split.
  - apply Z2Nat.id. lia.
  - apply in_seq. lia.
Qed.

(** The flags of the first four fragments decode to the fragment's index and
    the low five bits of the sequence counter. *)
Lemma fragmentFlags_decode (sequenceId : Z) (i : nat) :
  (0 <= sequenceId < 256)%Z ->
  i < 4 ->
  flagFragmented (fragmentFlags sequenceId i) = true
  /\ flagFragmentId (fragmentFlags sequenceId i) = Z.of_nat i
  /\ flagSequenceId (fragmentFlags sequenceId i) = (sequenceId mod 32)%Z.
Proof.
  intros Hs Hi.
  pose (check := fun s : Z =>
          forallb (fun j : nat =>
                     flagFragmented (fragmentFlags s j)
                     && (flagFragmentId (fragmentFlags s j) =? Z.of_nat j)%Z
                     && (flagSequenceId (fragmentFlags s j) =? s mod 32)%Z)
                  [0; 1; 2; 3]).
  assert (Hcheck : check sequenceId = true).
  { apply byte_range_check; [vm_compute; reflexivity | exact Hs]. }
  unfold check in Hcheck. rewrite forallb_forall in Hcheck.
  assert (Hin : In i [0; 1; 2; 3]) by (cbn; lia).
  specialize (Hcheck i Hin).
  apply andb_prop in Hcheck as [Hcheck Hseq].
  apply andb_prop in Hcheck as [Hfrag Hid].
  apply Z.eqb_eq in Hseq, Hid. auto.
Qed.

(** From the fifth fragment on the counter no longer fits the two bits of
    the fragment id. *)
Lemma fragmentFlags_fifth (sequenceId : Z) :
  (0 <= sequenceId < 256)%Z ->
  flagFragmented (fragmentFlags sequenceId 4) = true
  /\ flagFragmentId (fragmentFlags sequenceId 4) = 0%Z
  /\ flagSequenceId (fragmentFlags sequenceId 4)
     = Z.lor (sequenceId mod 32) 1.
Proof.
  intros Hs.
  pose (check := fun s : Z =>
          flagFragmented (fragmentFlags s 4)
          && (flagFragmentId (fragmentFlags s 4) =? 0)%Z
          && (flagSequenceId (fragmentFlags s 4) =? Z.lor (s mod 32) 1)%Z).
  assert (Hcheck : check sequenceId = true).
  { apply byte_range_check; [vm_compute; reflexivity | exact Hs]. }
  unfold check in Hcheck.
  apply andb_prop in Hcheck as [Hcheck Hseq].
  apply andb_prop in Hcheck as [Hfrag Hid].
  apply Z.eqb_eq in Hseq, Hid. auto.
Qed.

Lemma unfragmentedFlags_decode (sequenceId : Z) :
  (0 <= sequenceId < 256)%Z ->
  let f := uint8 (Z.shiftl (Z.land sequenceId 31) 3) in
  flagFragmented f = false
  /\ flagFragmentId f = 0%Z
  /\ flagSequenceId f = (sequenceId mod 32)%Z.
Proof.
  intros Hs f.
  pose (check := fun s : Z =>
          let g := uint8 (Z.shiftl (Z.land s 31) 3) in
          negb (flagFragmented g)
          && (flagFragmentId g =? 0)%Z
          && (flagSequenceId g =? s mod 32)%Z).
  assert (Hcheck : check sequenceId = true).
  { apply byte_range_check; [vm_compute; reflexivity | exact Hs]. }
  unfold check in Hcheck. cbv zeta in Hcheck. fold f in Hcheck.
  apply andb_prop in Hcheck as [Hcheck Hseq].
  apply andb_prop in Hcheck as [Hfrag Hid].
  apply Z.eqb_eq in Hseq, Hid. apply negb_true_iff in Hfrag. auto.
Qed.

(** X3. RTCM data shorter than 180 bytes, the empty input included, goes
    out as exactly one message: [len] is the length of the input, [data] is
    the input followed by zero bytes, and [flags] has the fragmented mark
    clear, fragment id 0 and the low five bits of the sequence counter. *)
Theorem inputRtcmData_short (sequenceId : Z) (rtcmData : list Byte.byte) :
  (0 <= sequenceId < 256)%Z ->
  length rtcmData < 180 ->
  exists m,
    fst (inputRtcmData our_sysid our_compid false sequenceId rtcmData) = [m]
    /\ len (payload m) = Z.of_nat (length rtcmData)
    /\ data (payload m) = rtcmData ++ repeat Byte.x00 (180 - length rtcmData)
    /\ flagFragmented (flags (payload m)) = false
    /\ flagFragmentId (flags (payload m)) = 0%Z
    /\ flagSequenceId (flags (payload m)) = (sequenceId mod 32)%Z.
Proof.
  intros Hs Hshort.
  rewrite inputRtcmData_unfragmented by exact Hshort.
  eexists. split; [reflexivity |].
  unfold encode. cbn [payload len data flags].
  split; [reflexivity |]. split; [reflexivity |].
  apply unfragmentedFlags_decode, Hs.
Qed.

(** At most four fragments for up to 720 bytes. *)
Lemma at_most_four_fragments (sequenceId : Z) (rtcmData : list Byte.byte) :
  180 <= length rtcmData <= 720 ->
  length (fst (inputRtcmData our_sysid our_compid false sequenceId rtcmData)) <= 4.
Proof.
  intros [Hlo Hhi].
  destruct (fragmented_structure sequenceId rtcmData Hlo) as [_ [Hlast _]].
  len_lia.
Qed.

(** X4. For RTCM data of 180 to 720 bytes (at most four fragments), every
    message has the fragmented mark set, its own index as fragment id and
    the low five bits of the sequence counter as sequence id. *)
Theorem inputRtcmData_flags (sequenceId : Z) (rtcmData : list Byte.byte) :
  (0 <= sequenceId < 256)%Z ->
  180 <= length rtcmData <= 720 ->
  forall i m,
    nth_error (fst (inputRtcmData our_sysid our_compid false sequenceId rtcmData)) i
    = Some m ->
    flagFragmented (flags (payload m)) = true
    /\ flagFragmentId (flags (payload m)) = Z.of_nat i
    /\ flagSequenceId (flags (payload m)) = (sequenceId mod 32)%Z.
Proof.
  intros Hs [Hlo Hhi] i m Hi.
  destruct (fragmented_structure sequenceId rtcmData Hlo) as [_ [_ Hall]].
  pose proof (at_most_four_fragments sequenceId rtcmData (conj Hlo Hhi)) as Hfour.
  assert (Hlt : i < length (fst (inputRtcmData our_sysid our_compid false
                                                sequenceId rtcmData))).
  { apply nth_error_Some. rewrite Hi. discriminate. }
  destruct (Hall i m Hi) as [_ [Hfl _]].
  rewrite Hfl. apply fragmentFlags_decode; [exact Hs | lia].
Qed.

(** Up to 720 bytes every message bears the low five bits of the sequence
    counter. *)
Lemma sequence_field_shown (sequenceId : Z) (rtcmData : list Byte.byte) :
  (0 <= sequenceId < 256)%Z ->
  length rtcmData <= 720 ->
  forall m,
    In m (fst (inputRtcmData our_sysid our_compid false sequenceId rtcmData)) ->
    flagSequenceId (flags (payload m)) = (sequenceId mod 32)%Z.
Proof.
  intros Hs Hlen m Hin.
  destruct (Nat.lt_ge_cases (length rtcmData) 180) as [Hshort | Hlong].
  - rewrite inputRtcmData_unfragmented in Hin by exact Hshort.
    destruct Hin as [<- | []]. unfold encode. cbn [payload flags].
    apply unfragmentedFlags_decode, Hs.
  - apply In_nth_error in Hin as [i Hi].
    destruct (fragmented_structure sequenceId rtcmData Hlong) as [_ [_ Hall]].
    pose proof (at_most_four_fragments sequenceId rtcmData (conj Hlong Hlen))
      as Hfour.
    assert (Hlt : i < length (fst (inputRtcmData our_sysid our_compid false
                                                  sequenceId rtcmData))).
    { apply nth_error_Some. rewrite Hi. discriminate. }
    destruct (Hall i m Hi) as [_ [Hfl _]].
    rewrite Hfl. apply fragmentFlags_decode; [exact Hs | lia].
Qed.

(** X5. For RTCM data of more than 720 bytes the fifth message (index 4)
    no longer bears its index: the fragment counter is not reduced to two
    bits, so the message has fragment id 0 and a sequence id whose lowest
    bit is set whatever the sequence counter is. *)
Theorem inputRtcmData_fifth_fragment (sequenceId : Z) (rtcmData : list Byte.byte) :
  (0 <= sequenceId < 256)%Z ->
  720 < length rtcmData ->
  exists m,
    nth_error (fst (inputRtcmData our_sysid our_compid false sequenceId rtcmData)) 4
    = Some m
    /\ carried m = mid rtcmData 720 180
    /\ flagFragmented (flags (payload m)) = true
    /\ flagFragmentId (flags (payload m)) = 0%Z
    /\ flagSequenceId (flags (payload m)) = Z.lor (sequenceId mod 32) 1.
Proof.
  intros Hs Hlong.
  destruct (fragmented_structure sequenceId rtcmData ltac:(len_lia))
    as [Hcover [_ Hall]].
  set (msgs := fst (inputRtcmData our_sysid our_compid false sequenceId rtcmData)) in *.
  assert (H4 : 4 < length msgs) by len_lia.
  destruct (nth_error msgs 4) as [m |] eqn:E.
  - exists m. split; [reflexivity |].
    destruct (Hall 4 m E) as [_ [Hfl [Hc _]]].
    split; [exact Hc |]. rewrite Hfl. apply fragmentFlags_fifth, Hs.
  - apply nth_error_None in E. lia.
Qed.

(** X6. The sequence counter advances by one modulo 256 with every call on
    a connection with a passthrough, so the messages of the next call bear
    the next sequence id modulo 32 (here for a next input of at most 720
    bytes); without a passthrough nothing is sent and the counter stays. *)
Theorem inputRtcmData_sequence (sequenceId : Z) (first next : list Byte.byte) :
  (0 <= sequenceId < 256)%Z ->
  length next <= 720 ->
  let sequenceId' :=
    snd (inputRtcmData our_sysid our_compid false sequenceId first) in
  (0 <= sequenceId' < 256)%Z
  /\ sequenceId' = ((sequenceId + 1) mod 256)%Z
  /\ (forall m,
        In m (fst (inputRtcmData our_sysid our_compid false sequenceId' next)) ->
        flagSequenceId (flags (payload m)) = ((sequenceId + 1) mod 32)%Z)
  /\ inputRtcmData our_sysid our_compid true sequenceId first = ([], sequenceId).
Proof.
  intros Hs Hlen sequenceId'.
  assert (E : sequenceId' = ((sequenceId + 1) mod 256)%Z) by reflexivity.
  assert (Hs' : (0 <= sequenceId' < 256)%Z).
  { rewrite E. apply Z.mod_pos_bound. lia. }
  assert (Hmod : (sequenceId' mod 32 = (sequenceId + 1) mod 32)%Z).
  { rewrite E. symmetry.
    rewrite (Z.div_mod (sequenceId + 1) 256) at 1 by lia.
    replace (256 * ((sequenceId + 1) / 256) + (sequenceId + 1) mod 256)%Z
      with ((sequenceId + 1) mod 256 + (8 * ((sequenceId + 1) / 256)) * 32)%Z
      by ring.
    apply Z.mod_add. lia. }
  split; [exact Hs' |]. split; [exact E |]. split; [| reflexivity].
  intros m Hin. rewrite <- Hmod.
  exact (sequence_field_shown sequenceId' next Hs' Hlen m Hin).
Qed.

End RtcmFacts.

(** ** The VESC motor controller: RPM requests and the check-current timer *)

Section VescFacts.

Import VESCMotorController.

Variable MAX_RPM_CONSIDERED_STOP : Z.
Variable SELECT_VALUES_MASK : Z.
Variable SELECT_IMU_DATA_MASK : Z.

Local Abbreviation stop := (consideredStop MAX_RPM_CONSIDERED_STOP).
Local Abbreviation request := (requestRPM MAX_RPM_CONSIDERED_STOP).
Local Abbreviation tick := (checkCurrentTimeout MAX_RPM_CONSIDERED_STOP).
Local Abbreviation deliver :=
  (handleAll MAX_RPM_CONSIDERED_STOP SELECT_VALUES_MASK SELECT_IMU_DATA_MASK).

Lemma lastRPMSent_app (packets : list VByteArray) (vb : VByteArray) :
  lastRPMSent (packets ++ [vb])
  = match lastRPMSent [vb] with
    | Some rpm => Some rpm
    | None => lastRPMSent packets
    end.
Proof.
  induction packets as [| vb' packets IH].
  - cbn [app]. destruct (lastRPMSent [vb]); reflexivity.
  - cbn [app lastRPMSent] in *. rewrite IH.
    destruct vb as [| [[] | | | | | |] [| [] [|]]]; try reflexivity.
Qed.

Lemma last_nonempty_default (rpms : list Z) (z d d' : Z) :
  last (z :: rpms) d = last (z :: rpms) d'.
Proof.
  revert z. induction rpms as [| z' rpms IH]; intros z; [reflexivity |].
  change (last (z' :: rpms) d = last (z' :: rpms) d'). apply IH.
Qed.

Lemma requestRPM_sent (rpm : Z) (c : t) :
  sentPackets (request rpm c)
  = if stop (mLastRPMrequest c) && stop rpm then sentPackets c
    else sentPackets c ++ [rpmPacket rpm].
Proof.
  unfold requestRPM.
  destruct (stop (mLastRPMrequest c) && stop rpm); reflexivity.
Qed.

Lemma requestRPM_last (rpm : Z) (c : t) :
  mLastRPMrequest (request rpm c) = rpm.
Proof. reflexivity. Qed.

Lemma requestRPM_flag (rpm : Z) (c : t) :
  setCurrentToZeroNextTime (request rpm c) = setCurrentToZeroNextTime c.
Proof.
  unfold requestRPM.
  destruct (negb (stop (mLastRPMrequest c) && stop rpm)); reflexivity.
Qed.

Lemma lastRPMRequested_app (events : list Event) (e : Event) :
  lastRPMRequested (events ++ [e])
  = match e with
    | RequestRPM rpm => Some rpm
    | _ => lastRPMRequested events
    end.
Proof.
  induction events as [| e' events IH].
  - destruct e; reflexivity.
  - cbn [app lastRPMRequested]. rewrite IH. destruct e; reflexivity.
Qed.

(** An event other than an RPM request leaves the recorded request and the
    RPM the VESC heard last as they are. *)
Lemma other_events_keep_rpm (c : t) (e : Event) :
  (forall rpm, e <> RequestRPM rpm) ->
  mLastRPMrequest (handle MAX_RPM_CONSIDERED_STOP SELECT_VALUES_MASK
                          SELECT_IMU_DATA_MASK c e) = mLastRPMrequest c
  /\ lastRPMSent (sentPackets (handle MAX_RPM_CONSIDERED_STOP SELECT_VALUES_MASK
                                      SELECT_IMU_DATA_MASK c e))
     = lastRPMSent (sentPackets c).
Proof.
  intros Hother.
  destruct e as [r | steering | | | | enabled]; cbn [handle].
  - now contradiction (Hother r).
  - unfold requestSteering, sendPacket. cbn [sentPackets mLastRPMrequest].
    now rewrite lastRPMSent_app.
  - unfold heartbeatTimeout, sendPacket. cbn [sentPackets mLastRPMrequest].
    now rewrite lastRPMSent_app.
  - unfold pollValuesTimeout, sendPacket. cbn [mEnableIMUOrientationUpdate].
    destruct (mEnableIMUOrientationUpdate c); cbn [sentPackets mLastRPMrequest];
      now rewrite !lastRPMSent_app.
  - unfold checkCurrentTimeout, sendPacket.
    destruct (setCurrentToZeroNextTime c).
    + cbn [sentPackets mLastRPMrequest]. now rewrite lastRPMSent_app.
    + destruct (stop (mLastRPMrequest c)); now cbn [sentPackets mLastRPMrequest].
  - now cbn [setEnableIMUOrientationUpdate sentPackets mLastRPMrequest].
Qed.

(** What the controller records and what the VESC heard last, against the
    requests delivered. *)
Lemma heard_against_requested (events : list Event) (c : t) :
  sentPackets c = [] ->
  match lastRPMRequested events with
  | Some requested =>
      mLastRPMrequest (deliver events c) = requested
      /\ (stop requested = false ->
          lastRPMSent (sentPackets (deliver events c)) = Some requested)
      /\ (stop requested = true ->
          forall heard,
            lastRPMSent (sentPackets (deliver events c)) = Some heard ->
            stop heard = true)
  | None =>
      mLastRPMrequest (deliver events c) = mLastRPMrequest c
      /\ lastRPMSent (sentPackets (deliver events c)) = None
  end.
Proof.
  intros Hnone. unfold handleAll.
  induction events as [| e events IH] using rev_ind.
  - cbn. now rewrite Hnone.
  - rewrite fold_left_app, lastRPMRequested_app. cbn [fold_left].
    set (c' := fold_left (handle MAX_RPM_CONSIDERED_STOP SELECT_VALUES_MASK
                                 SELECT_IMU_DATA_MASK) events c) in *.
    destruct e as [r | steering | | | | enabled];
      try (match goal with
           | |- context [handle _ _ _ c' ?e] =>
               destruct (other_events_keep_rpm c' e) as [-> ->];
               [intros rpm; discriminate | exact IH]
           end).
    cbn [handle].
    rewrite requestRPM_last, requestRPM_sent.
    split; [reflexivity |]. split.
    + intros Hr. rewrite Hr, andb_false_r.
      rewrite lastRPMSent_app. reflexivity.
    + intros Hr heard. rewrite Hr, andb_true_r.
      destruct (stop (mLastRPMrequest c')) eqn:Elast.
      * destruct (lastRPMRequested events) as [requested |].
        -- destruct IH as [Hrec [_ Hband]]. rewrite Hrec in Elast.
           now apply Hband.
        -- destruct IH as [_ Hsilent]. rewrite Hsilent. discriminate.
      * rewrite lastRPMSent_app. cbn. intros [= <-]. exact Hr.
Qed.

(** X7. Whatever requests and timer slots the event loop delivers, in
    whatever order, to a controller that has sent no packet yet: the
    controller records the RPM requested last; if that RPM is at or above
    the stop threshold, the last COMM_SET_RPM packet handed to the VESC
    carries exactly it; if it is inside the stop band, whatever RPM the VESC
    heard last is inside the stop band too; and as long as no RPM is
    requested no COMM_SET_RPM packet is sent. *)
Theorem vesc_heard_matches_requested (events : list Event) (c : t) :
  sentPackets c = [] ->
  absDefined (mLastRPMrequest c) ->
  Forall eventDefined events ->
  (forall requested,
     lastRPMRequested events = Some requested ->
     mLastRPMrequest (deliver events c) = requested
     /\ (stop requested = false ->
         lastRPMSent (sentPackets (deliver events c)) = Some requested)
     /\ (stop requested = true ->
         forall heard,
           lastRPMSent (sentPackets (deliver events c)) = Some heard ->
           stop heard = true))
  /\ (lastRPMRequested events = None ->
      lastRPMSent (sentPackets (deliver events c)) = None).
Proof.
  intros Hnone _ _.
  pose proof (heard_against_requested events c Hnone) as H.
  split.
  - intros requested E. rewrite E in H. exact H.
  - intros E. rewrite E in H. apply H.
Qed.

(** X8. After a request at or above the stop threshold, of a run of
    requests inside the stop band only the first is handed to the VESC; the
    others send nothing, also when they ask for another value, and the last
    of them is the one recorded. *)
Theorem vesc_repeated_stop_requests (first : Z) (others : list Z) (c : t) :
  stop (mLastRPMrequest c) = false ->
  stop first = true ->
  Forall (fun rpm => stop rpm = true) others ->
  absDefined (mLastRPMrequest c) ->
  Forall absDefined (first :: others) ->
  let c' := deliver (map RequestRPM (first :: others)) c in
  sentPackets c' = sentPackets c ++ [rpmPacket first]
  /\ mLastRPMrequest c' = last others first.
Proof.
  intros Hmoving Hfirst Hothers _ _. unfold handleAll. cbn [map fold_left handle].
  assert (Hgen : forall rpms c0,
             stop (mLastRPMrequest c0) = true ->
             Forall (fun rpm => stop rpm = true) rpms ->
             sentPackets (fold_left (handle MAX_RPM_CONSIDERED_STOP
                                            SELECT_VALUES_MASK SELECT_IMU_DATA_MASK)
                                    (map RequestRPM rpms) c0)
             = sentPackets c0
             /\ mLastRPMrequest (fold_left (handle MAX_RPM_CONSIDERED_STOP
                                                   SELECT_VALUES_MASK
                                                   SELECT_IMU_DATA_MASK)
                                           (map RequestRPM rpms) c0)
                = last rpms (mLastRPMrequest c0)).
  { induction rpms as [| rpm rpms IH]; intros c0 Hc0 Hall.
    - split; reflexivity.
    - inversion Hall as [| ? ? Hrpm Hrest]; subst.
      cbn [map fold_left handle].
      destruct (IH (request rpm c0)) as [Hs Hl].
      + now rewrite requestRPM_last.
      + exact Hrest.
      + rewrite Hs, Hl, requestRPM_sent, requestRPM_last, Hc0, Hrpm.
        split; [reflexivity |].
        destruct rpms as [| z rpms]; [reflexivity |].
        change (last (rpm :: z :: rpms) (mLastRPMrequest c0))
          with (last (z :: rpms) (mLastRPMrequest c0)).
        apply last_nonempty_default. }
  destruct (Hgen others (request first c)) as [Hs Hl].
  - now rewrite requestRPM_last.
  - exact Hothers.
  - rewrite Hs, Hl, requestRPM_sent, requestRPM_last, Hmoving. cbn [andb].
    split; reflexivity.
Qed.

Lemma two_ticks_when_stopped (c : t) :
  stop (mLastRPMrequest c) = true ->
  setCurrentToZeroNextTime c = false ->
  tick (tick c)
  = mk (mLastRPMrequest c) false (mEnableIMUOrientationUpdate c)
       (sentPackets c ++ [zeroCurrentPacket]).
Proof.
  intros Hstop Hflag. unfold checkCurrentTimeout at 2.
  rewrite Hflag, Hstop. unfold checkCurrentTimeout. reflexivity.
Qed.

(** X9. While the last request is inside the stop band and no request
    arrives, the check-current timer sends the zero-current packet on every
    second timeout: [2*k] timeouts send [k] packets.  While the last request
    is at or above the threshold (and no packet is pending) its timeouts
    send nothing and change nothing. *)
Theorem vesc_check_current_timer (k n : nat) (c : t) :
  setCurrentToZeroNextTime c = false ->
  absDefined (mLastRPMrequest c) ->
  (stop (mLastRPMrequest c) = true ->
   deliver (repeat CheckCurrentTimeout (2 * k)) c
   = mk (mLastRPMrequest c) false (mEnableIMUOrientationUpdate c)
        (sentPackets c ++ repeat zeroCurrentPacket k))
  /\ (stop (mLastRPMrequest c) = false ->
      deliver (repeat CheckCurrentTimeout n) c = c).
Proof.
  intros Hflag _. split; intros Hstop.
  - revert c Hflag Hstop. induction k as [| k IH]; intros c Hflag Hstop.
    + cbn. rewrite app_nil_r. now destruct c; cbn in *; subst.
    + replace (2 * S k)%nat with (S (S (2 * k))) by lia.
      unfold handleAll in *. cbn [repeat fold_left handle].
      rewrite two_ticks_when_stopped by assumption.
      rewrite IH by (first [reflexivity | exact Hstop]).
      cbn [mLastRPMrequest mEnableIMUOrientationUpdate sentPackets].
      now rewrite <- app_assoc.
  - induction n as [| n IH]; [reflexivity |].
    unfold handleAll in *. cbn [repeat fold_left handle].
    unfold checkCurrentTimeout at 1. rewrite Hflag, Hstop. exact IH.
Qed.

(** X10. A zero-current packet armed by a timeout while the motor was
    considered stopped is sent by the next timeout whatever was requested in
    between: after timeout, request of an RPM at or above the threshold and
    timeout, the VESC has received the RPM packet and then the zero-current
    packet. *)
Theorem vesc_zero_current_after_start (rpm : Z) (c : t) :
  stop (mLastRPMrequest c) = true ->
  setCurrentToZeroNextTime c = false ->
  stop rpm = false ->
  absDefined (mLastRPMrequest c) ->
  absDefined rpm ->
  let c' := deliver [CheckCurrentTimeout; RequestRPM rpm; CheckCurrentTimeout] c in
  sentPackets c' = sentPackets c ++ [rpmPacket rpm; zeroCurrentPacket]
  /\ mLastRPMrequest c' = rpm
  /\ setCurrentToZeroNextTime c' = false.
Proof.
  intros Hstop Hflag Hrpm _ _.
  unfold handleAll. cbn [fold_left handle].
  assert (E1 : tick c
               = mk (mLastRPMrequest c) true (mEnableIMUOrientationUpdate c)
                    (sentPackets c)).
  { unfold checkCurrentTimeout. now rewrite Hflag, Hstop. }
  rewrite E1.
  assert (E2 : request rpm (mk (mLastRPMrequest c) true
                               (mEnableIMUOrientationUpdate c) (sentPackets c))
               = mk rpm true (mEnableIMUOrientationUpdate c)
                    (sentPackets c ++ [rpmPacket rpm])).
  { unfold requestRPM. cbn [mLastRPMrequest]. now rewrite Hstop, Hrpm. }
  rewrite E2.
  unfold checkCurrentTimeout, sendPacket.
  cbn [setCurrentToZeroNextTime sentPackets mLastRPMrequest
       mEnableIMUOrientationUpdate].
  rewrite <- app_assoc. repeat split; reflexivity.
Qed.

End VescFacts.

(** ** Conversions to integers *)

Section CastFacts.

Import Cast.

Lemma Rabs_le_bounds (a b : R) : Rabs a <= b -> - b <= a <= b.
Proof. unfold Rabs. destruct (Rcase_abs a); lra. Qed.

Lemma truncate_nonneg (r : R) :
  0 <= r -> (0 <= truncate r)%Z /\ IZR (truncate r) <= r < IZR (truncate r) + 1.
Proof.
  intros Hr. unfold truncate.
  destruct (Rle_dec 0 r) as [_ | Hn]; [| contradiction].
  split; [apply (Zfloor_lub 0 r Hr) | apply Zfloor_bound].
Qed.

Lemma truncate_neg (r : R) :
  r < 0 -> (truncate r <= 0)%Z /\ IZR (truncate r) - 1 < r <= IZR (truncate r).
Proof.
  intros Hr. unfold truncate.
  destruct (Rle_dec 0 r) as [Hp | _]; [lra |].
  pose proof (Zceil_bound r) as Hb.
  split; [| exact Hb].
  assert (Hlt : IZR (Zceil r) < IZR 1) by lra.
  apply lt_IZR in Hlt. lia.
Qed.

(** Truncation keeps within one unit of the number, on the side of zero. *)
Lemma truncate_close (r : R) :
  Rabs (IZR (truncate r) - r) < 1 /\ Rabs (IZR (truncate r)) <= Rabs r.
Proof.
  destruct (Rle_dec 0 r) as [Hr | Hr].
  - destruct (truncate_nonneg r Hr) as [Hz Hb].
    apply IZR_le in Hz. split.
    + apply Rabs_def1; lra.
    + rewrite !Rabs_pos_eq; lra.
  - destruct (truncate_neg r ltac:(lra)) as [Hz Hb].
    apply IZR_le in Hz. split.
    + apply Rabs_def1; lra.
    + rewrite (Rabs_left1 r) by lra. rewrite Rabs_left1 by lra. lra.
Qed.

Lemma truncate_IZR (z : Z) : truncate (IZR z) = z.
Proof.
  unfold truncate. destruct (Rle_dec 0 (IZR z)) as [_ | _].
  - apply ZfloorZ.
  - unfold Zceil. rewrite ZfloorNZ. lia.
Qed.

(** [std::round] is within one half of its argument and is a whole
    number. *)
Lemma round_close (r : R) :
  Rabs (round r - r) <= / 2 /\ round r = IZR (truncate (round r)).
Proof.
  split.
  - unfold round. destruct (Rle_dec 0 r) as [Hr | Hr].
    + pose proof (Zfloor_bound (r + / 2)). apply Rabs_le. lra.
    + pose proof (Zceil_bound (r - / 2)). apply Rabs_le. lra.
  - unfold round. now rewrite truncate_IZR.
Qed.

Lemma toInt32_in_range (r : R) :
  - 2147483648 < r < 2147483648 ->
  toInt32 r = Some (truncate r).
Proof.
  intros Hr. unfold toInt32, fitsInt32, INT32_MIN, INT32_MAX.
  destruct (truncate_close r) as [_ Habs].
  assert (Hlt : Rabs (IZR (truncate r)) < 2147483648).
  { eapply Rle_lt_trans; [exact Habs |]. apply Rabs_def1; lra. }
  apply Rabs_def2 in Hlt as [Hhi Hlo].
  rewrite <- opp_IZR in Hlo.
  apply lt_IZR in Hhi. apply lt_IZR in Hlo.
  replace ((-2147483648 <=? truncate r)%Z) with true
    by (symmetry; apply Z.leb_le; lia).
  replace ((truncate r <=? 2147483647)%Z) with true
    by (symmetry; apply Z.leb_le; lia).
  reflexivity.
Qed.

Lemma toInt32_round (r : R) :
  Rabs r <= 2147483647 ->
  toInt32 (round r) = Some (truncate (round r))
  /\ Rabs (IZR (truncate (round r)) - r) <= / 2.
Proof.
  intros Hr. destruct (round_close r) as [Hclose Hwhole].
  apply Rabs_le_bounds in Hr. apply Rabs_le_bounds in Hclose.
  split.
  - apply toInt32_in_range. lra.
  - rewrite <- Hwhole. apply Rabs_le. lra.
Qed.

End CastFacts.

(** ** Requests of the MAVSDK connection *)

Section MavsdkRequestFacts.

Import Cast MavsdkRequests.

(** A computed product of magnitude up to 2e9 is within a millionth of the
    exact one. *)
Lemma computed_product_close (mul : R -> R -> R) (a b : R) :
  accurateAt mul a b ->
  Rabs (a * b) <= 2000000000 ->
  Rabs (mul a b - a * b) <= / 1000000.
Proof.
  unfold accurateAt. intros Hacc Hmag.
  pose proof (Rabs_pos (a * b)) as Hpos.
  eapply Rle_trans; [exact Hacc |]. lra.
Qed.

Lemma computed_product_bounds (mul : R -> R -> R) (a b bound : R) :
  accurateAt mul a b ->
  Rabs (a * b) <= bound ->
  bound <= 2000000000 ->
  - bound - / 1000000 <= mul a b <= bound + / 1000000
  /\ - / 1000000 <= mul a b - a * b <= / 1000000.
Proof.
  intros Hacc Hmag Hbound.
  pose proof (computed_product_close mul a b Hacc ltac:(lra)) as Hclose.
  apply Rabs_le_bounds in Hclose. apply Rabs_le_bounds in Hmag. lra.
Qed.

(** X11. [requestGotoLlh] without change of flight mode, for a latitude
    within 90 and a longitude within 180 degrees whose products with 1e7
    are computed to double accuracy: the conversions are defined and one
    MAV_CMD_DO_REPOSITION command goes out, whose [x] and [y] are within
    half a unit of the computed products, hence within half a unit and a
    millionth of latitude and longitude times 1e7, whose [z] is the height
    and whose yaw parameter is NAN.  With change of flight mode the position
    is handed to [goto_location_async] as it is. *)
Theorem requestGotoLlh_reposition (mulDouble : R -> R -> R)
        (c : MavsdkVehicleConnection.t) (llh : MavsdkVehicleConnection.llh_t) :
  Rabs (MavsdkVehicleConnection.latitude llh) <= 90 ->
  Rabs (MavsdkVehicleConnection.longitude llh) <= 180 ->
  accurateAt mulDouble (MavsdkVehicleConnection.latitude llh) 10000000 ->
  accurateAt mulDouble (MavsdkVehicleConnection.longitude llh) 10000000 ->
  (exists ComInt,
     requestGotoLlh mulDouble c llh false = Returned [send_command_int ComInt]
     /\ command ComInt = MAV_CMD_DO_REPOSITION
     /\ Rabs (IZR (x ComInt)
              - mulDouble (MavsdkVehicleConnection.latitude llh) 10000000)
        <= / 2
     /\ Rabs (IZR (x ComInt) - MavsdkVehicleConnection.latitude llh * 10000000)
        <= / 2 + / 1000000
     /\ Rabs (IZR (y ComInt)
              - mulDouble (MavsdkVehicleConnection.longitude llh) 10000000)
        <= / 2
     /\ Rabs (IZR (y ComInt) - MavsdkVehicleConnection.longitude llh * 10000000)
        <= / 2 + / 1000000
     /\ z ComInt = MavsdkVehicleConnection.height llh
     /\ param4 ComInt = MavsdkVehicleConnection.NAN
     /\ target_sysid ComInt = MavsdkVehicleConnection.get_target_sysid c
     /\ target_compid ComInt = MavsdkVehicleConnection.get_target_compid c)
  /\ requestGotoLlh mulDouble c llh true
     = Returned [goto_location_async (MavsdkVehicleConnection.latitude llh)
                                     (MavsdkVehicleConnection.longitude llh)
                                     (MavsdkVehicleConnection.height llh)
                                     MavsdkVehicleConnection.NAN].
Proof.
  intros Hlat Hlon Alat Alon. split; [| reflexivity].
  apply Rabs_le_bounds in Hlat. apply Rabs_le_bounds in Hlon.
  destruct (computed_product_bounds mulDouble _ _ 900000000 Alat)
    as [Bx Cx]; [apply Rabs_le; lra | lra |].
  destruct (computed_product_bounds mulDouble _ _ 1800000000 Alon)
    as [By Cy]; [apply Rabs_le; lra | lra |].
  destruct (toInt32_round
              (mulDouble (MavsdkVehicleConnection.latitude llh) 10000000))
    as [Ex Hx]; [apply Rabs_le; lra |].
  destruct (toInt32_round
              (mulDouble (MavsdkVehicleConnection.longitude llh) 10000000))
    as [Ey Hy]; [apply Rabs_le; lra |].
  unfold requestGotoLlh. rewrite Ex, Ey.
  eexists. split; [reflexivity |].
  cbn [command x y z param4 target_sysid target_compid].
  pose proof Hx as Hx'. pose proof Hy as Hy'.
  apply Rabs_le_bounds in Hx'. apply Rabs_le_bounds in Hy'.
  repeat split; try assumption; apply Rabs_le; lra.
Qed.

(** X12. [sendSetGpsOriginLlh] on a connection with a passthrough, for a
    latitude within 90 and a longitude within 180 degrees and a height
    within 2000 km whose products with 1e7 and 1e3 are computed to double
    accuracy: the conversions are defined and one message goes out, whose
    latitude, longitude and altitude are the computed products cut towards
    zero: less than one unit off the computed product and never larger than
    it in magnitude, hence less than one unit and a millionth off latitude
    and longitude times 1e7 and height times 1e3.  Without a passthrough
    nothing is sent. *)
Theorem sendSetGpsOriginLlh_truncates (mulDouble : R -> R -> R)
        (c : MavsdkVehicleConnection.t)
        (gpsOriginLlh : MavsdkVehicleConnection.llh_t) :
  Rabs (MavsdkVehicleConnection.latitude gpsOriginLlh) <= 90 ->
  Rabs (MavsdkVehicleConnection.longitude gpsOriginLlh) <= 180 ->
  Rabs (MavsdkVehicleConnection.height gpsOriginLlh) <= 2000000 ->
  accurateAt mulDouble (MavsdkVehicleConnection.latitude gpsOriginLlh) 10000000 ->
  accurateAt mulDouble (MavsdkVehicleConnection.longitude gpsOriginLlh) 10000000 ->
  accurateAt mulDouble (MavsdkVehicleConnection.height gpsOriginLlh) 1000 ->
  let lat7 := mulDouble (MavsdkVehicleConnection.latitude gpsOriginLlh) 10000000 in
  let lon7 := mulDouble (MavsdkVehicleConnection.longitude gpsOriginLlh) 10000000 in
  let alt3 := mulDouble (MavsdkVehicleConnection.height gpsOriginLlh) 1000 in
  (exists msg,
     sendSetGpsOriginLlh mulDouble false c gpsOriginLlh = Returned [msg]
     /\ Rabs (IZR (latitude msg) - lat7) < 1
     /\ Rabs (IZR (latitude msg)) <= Rabs lat7
     /\ Rabs (IZR (latitude msg)
              - MavsdkVehicleConnection.latitude gpsOriginLlh * 10000000)
        < 1 + / 1000000
     /\ Rabs (IZR (longitude msg) - lon7) < 1
     /\ Rabs (IZR (longitude msg)) <= Rabs lon7
     /\ Rabs (IZR (longitude msg)
              - MavsdkVehicleConnection.longitude gpsOriginLlh * 10000000)
        < 1 + / 1000000
     /\ Rabs (IZR (altitude msg) - alt3) < 1
     /\ Rabs (IZR (altitude msg)) <= Rabs alt3
     /\ Rabs (IZR (altitude msg)
              - MavsdkVehicleConnection.height gpsOriginLlh * 1000)
        < 1 + / 1000000
     /\ target_system msg = MavsdkVehicleConnection.get_target_sysid c)
  /\ sendSetGpsOriginLlh mulDouble true c gpsOriginLlh = Returned [].
Proof.
  intros Hlat Hlon Hh Alat Alon Aalt lat7 lon7 alt3. split; [| reflexivity].
  apply Rabs_le_bounds in Hlat. apply Rabs_le_bounds in Hlon.
  apply Rabs_le_bounds in Hh.
  destruct (computed_product_bounds mulDouble _ _ 900000000 Alat)
    as [Bx Cx]; [apply Rabs_le; lra | lra |].
  destruct (computed_product_bounds mulDouble _ _ 1800000000 Alon)
    as [By Cy]; [apply Rabs_le; lra | lra |].
  destruct (computed_product_bounds mulDouble _ _ 2000000000 Aalt)
    as [Bz Cz]; [apply Rabs_le; lra | lra |].
  fold lat7 in Bx, Cx. fold lon7 in By, Cy. fold alt3 in Bz, Cz.
  unfold sendSetGpsOriginLlh. fold lat7 lon7 alt3.
  rewrite !toInt32_in_range by lra.
  eexists. split; [reflexivity |].
  cbn [latitude longitude altitude target_system].
  destruct (truncate_close lat7) as [Tx Mx].
  destruct (truncate_close lon7) as [Ty My].
  destruct (truncate_close alt3) as [Tz Mz].
  pose proof Tx as Tx'. pose proof Ty as Ty'. pose proof Tz as Tz'.
  apply Rabs_def2 in Tx'. apply Rabs_def2 in Ty'. apply Rabs_def2 in Tz'.
  repeat split; try assumption; apply Rabs_def1; lra.
Qed.



(** X14. For any vehicle type other than the ground rover
    [appendToRouteOnVehicle] throws on every route with at least one point,
    so no mission is uploaded; an empty route is uploaded as an empty
    mission whatever the vehicle type. *)
Theorem appendToRouteOnVehicle_other_types (mVehicleType : MAV_TYPE)
        (route : list RoutePoint) :
  (mVehicleType <> MAV_TYPE_GROUND_ROVER ->
   route <> [] ->
   appendToRouteOnVehicle mVehicleType route = Thrown)
  /\ appendToRouteOnVehicle mVehicleType [] = Returned [].
Proof.
  split; [| reflexivity].
  intros Htype Hroute.
  destruct route as [| p route]; [contradiction |].
  unfold appendToRouteOnVehicle. cbn [convertRouteFrom].
  unfold convertPosPointToMissionItem.
  destruct mVehicleType; try reflexivity. contradiction.
Qed.

End MavsdkRequestFacts.

Section HomeFacts.

Import MavsdkVehicleConnection.

Variable llhToEnu : llh_t -> llh_t -> xyz_t.
Variable send_command_long : CommandLong -> Result.

(** X15. A call of [setHomeLlh] that returns keeps the ENU reference, the
    target ids, the armed flag, the autopilot radius and the yaw of the home
    position; once its send has succeeded, repeating it with the same home
    changes nothing further, whatever the link answers then; it fails to
    return exactly when the send succeeds while the vehicle state is null;
    and when the send succeeds it leaves the connection as the telemetry
    home callback does for the same position. *)
Theorem setHomeLlh_frame (c : t) (homeLlh : llh_t) :
  (forall c',
     setHomeLlh llhToEnu send_command_long c homeLlh = Some c' ->
     mEnuReference c' = mEnuReference c
     /\ get_target_sysid c' = get_target_sysid c
     /\ get_target_compid c' = get_target_compid c
     /\ (forall v, mVehicleState c = Some v ->
           exists v', mVehicleState c' = Some v'
                      /\ getIsArmed v' = getIsArmed v
                      /\ getAutopilotRadius v' = getAutopilotRadius v
                      /\ PosPoint.getYaw (getHomePosition v')
                         = PosPoint.getYaw (getHomePosition v))
     /\ (mVehicleState c = None -> mVehicleState c' = None)
     /\ (send_command_long (homeCommand c homeLlh) = Success ->
         forall link : CommandLong -> Result,
           setHomeLlh llhToEnu link c' homeLlh = Some c')
     /\ (send_command_long (homeCommand c homeLlh) = Success ->
         option_map fst (MavsdkRequests.homeCallback llhToEnu c homeLlh)
         = Some c'))
  /\ (setHomeLlh llhToEnu send_command_long c homeLlh = None
      <-> send_command_long (homeCommand c homeLlh) = Success
          /\ mVehicleState c = None).
Proof.
  unfold setHomeLlh, MavsdkRequests.homeCallback.
  destruct (Result_eqb (send_command_long (homeCommand c homeLlh)) Success) eqn:E.
  - apply Result_eqb_Success in E.
    destruct (mVehicleState c) as [v |] eqn:Ev.
    + split.
      * intros c' [= <-]. cbn [mEnuReference get_target_sysid get_target_compid
                                mVehicleState].
        repeat split.
        -- intros v0 [= <-]. eexists. split; [reflexivity |]. repeat split.
        -- discriminate.
        -- intros _ link.
           destruct (Result_eqb (link _) Success); reflexivity.
        -- intros _. destruct homeLlh. reflexivity.
      * split; [discriminate | intros [_ H]; discriminate H].
    + split; [discriminate | split; auto].
  - assert (Hne : send_command_long (homeCommand c homeLlh) <> Success).
    { intros H. apply Result_eqb_Success in H. congruence. }
    split.
    + intros c' [= <-]. repeat split.
      * intros v Hv. exists v. now repeat split.
      * auto.
      * intros H. contradiction.
      * intros H. contradiction.
    + split; [discriminate | intros [H _]; contradiction].
Qed.

End HomeFacts.

(** ** Geometry of the curvature laws *)

Section PursuitGeometry.

Import TruckState.

Variable vehiclePos : PosPoint.t.

Lemma pure_pursuit_value (s : t) (p : QPointF.t) :
  mHasTrailer s = false ->
  getCurvatureToPointInVehicleFrame vehiclePos s p
  = - (2 * QPointF.y p / distanceSquared p).
Proof.
  intros Hno. unfold getCurvatureToPointInVehicleFrame. now rewrite Hno.
Qed.

Lemma distanceSquared_pos (p : QPointF.t) :
  QPointF.x p <> 0 \/ QPointF.y p <> 0 -> 0 < distanceSquared p.
Proof. unfold distanceSquared. intros [H | H]; nra. Qed.

(** X16. Without a trailer the curvature has the sign opposite to the
    goal's [y]: a goal to the left ([y > 0]) gives a negative curvature, a
    goal to the right a positive one, and a goal on the vehicle's axis other
    than the origin, behind the vehicle as well as ahead, gives 0. *)
Theorem pure_pursuit_sign (s : t) (p : QPointF.t) :
  mHasTrailer s = false ->
  (0 < QPointF.y p -> getCurvatureToPointInVehicleFrame vehiclePos s p < 0)
  /\ (QPointF.y p < 0 -> 0 < getCurvatureToPointInVehicleFrame vehiclePos s p)
  /\ (QPointF.y p = 0 -> QPointF.x p <> 0 ->
      getCurvatureToPointInVehicleFrame vehiclePos s p = 0).
Proof.
  intros Hno. rewrite (pure_pursuit_value s p Hno).
  split; [| split].
  - intros Hy. assert (Hd : 0 < distanceSquared p)
      by (apply distanceSquared_pos; right; lra).
    assert (0 < 2 * QPointF.y p / distanceSquared p)
      by (apply Rdiv_lt_0_compat; lra).
    lra.
  - intros Hy. assert (Hd : 0 < distanceSquared p)
      by (apply distanceSquared_pos; right; lra).
    assert (0 < 2 * - QPointF.y p / distanceSquared p)
      by (apply Rdiv_lt_0_compat; lra).
    unfold Rdiv in *. lra.
  - intros Hy Hx. rewrite Hy. unfold Rdiv. ring.
Qed.

(** X17. Without a trailer, mirroring the goal in the vehicle's axis
    negates the curvature, and moving the goal along its ray from the
    vehicle by a factor [c] divides the curvature by [c]. *)
Theorem pure_pursuit_symmetry (s : t) (p : QPointF.t) (c : R) :
  mHasTrailer s = false ->
  (QPointF.x p <> 0 \/ QPointF.y p <> 0) ->
  c <> 0 ->
  getCurvatureToPointInVehicleFrame vehiclePos s
    (QPointF.mk (QPointF.x p) (- QPointF.y p))
  = - getCurvatureToPointInVehicleFrame vehiclePos s p
  /\ getCurvatureToPointInVehicleFrame vehiclePos s
       (QPointF.mk (c * QPointF.x p) (c * QPointF.y p))
     = getCurvatureToPointInVehicleFrame vehiclePos s p / c.
Proof.
  intros Hno Hp Hc.
  rewrite !(pure_pursuit_value s _ Hno).
  pose proof (distanceSquared_pos p Hp) as Hd.
  unfold distanceSquared in *. cbn [QPointF.x QPointF.y].
  assert (Hc2 : 0 < c ^ 2) by nra.
  assert (Hm : 0 < QPointF.x p ^ 2 + (- QPointF.y p) ^ 2) by nra.
  assert (Hs : 0 < (c * QPointF.x p) ^ 2 + (c * QPointF.y p) ^ 2).
  { replace ((c * QPointF.x p) ^ 2 + (c * QPointF.y p) ^ 2)
      with (c ^ 2 * (QPointF.x p ^ 2 + QPointF.y p ^ 2)) by ring.
    now apply Rmult_lt_0_compat. }
  split; field; repeat split; lra.
Qed.

(** X18. Without a trailer and for a goal off the vehicle's axis, the
    curvature returned is that of the circle through the vehicle's position
    that is tangent to its heading there and passes through the goal: with
    [r = - 1 / curvature], the goal satisfies [x^2 + (y - r)^2 = r^2]. *)
Theorem pure_pursuit_circle (s : t) (p : QPointF.t) :
  mHasTrailer s = false ->
  QPointF.y p <> 0 ->
  let kappa := getCurvatureToPointInVehicleFrame vehiclePos s p in
  kappa <> 0
  /\ QPointF.x p ^ 2 + (QPointF.y p - (- 1 / kappa)) ^ 2 = (- 1 / kappa) ^ 2.
Proof.
  intros Hno Hy kappa. unfold kappa.
  rewrite (pure_pursuit_value s p Hno).
  assert (Hd : 0 < distanceSquared p) by (apply distanceSquared_pos; now right).
  unfold distanceSquared in *.
  split.
  - intros H0.
    assert (E : 2 * QPointF.y p / (QPointF.x p ^ 2 + QPointF.y p ^ 2) = 0) by lra.
    apply (Rmult_eq_compat_r (QPointF.x p ^ 2 + QPointF.y p ^ 2)) in E.
    unfold Rdiv in E. rewrite Rmult_assoc, Rinv_l, Rmult_0_l in E by lra. lra.
  - field. split; lra.
Qed.

(** X19. Without a trailer the curvature is at most 2 over the distance of
    the goal from the vehicle, in magnitude. *)
Theorem pure_pursuit_bound (s : t) (p : QPointF.t) :
  mHasTrailer s = false ->
  (QPointF.x p <> 0 \/ QPointF.y p <> 0) ->
  Rabs (getCurvatureToPointInVehicleFrame vehiclePos s p)
  <= 2 / sqrt (distanceSquared p).
Proof.
  intros Hno Hp. rewrite (pure_pursuit_value s p Hno).
  pose proof (distanceSquared_pos p Hp) as Hd.
  set (d := sqrt (distanceSquared p)).
  assert (Hdpos : 0 < d) by (apply sqrt_lt_R0; exact Hd).
  assert (Hdd : d * d = distanceSquared p) by (apply sqrt_sqrt; lra).
  assert (Hy : Rabs (QPointF.y p) <= d).
  { unfold distanceSquared in Hdd. unfold Rabs.
    destruct (Rcase_abs (QPointF.y p)); nra. }
  rewrite Rabs_Ropp. unfold Rdiv at 1.
  rewrite Rabs_mult, Rabs_mult, (Rabs_pos_eq 2) by lra.
  rewrite (Rabs_pos_eq (/ distanceSquared p))
    by (left; now apply Rinv_0_lt_compat).
  rewrite <- Hdd.
  apply (Rmult_le_reg_r (d * d)); [nra |].
  replace (2 * Rabs (QPointF.y p) * / (d * d) * (d * d))
    with (2 * Rabs (QPointF.y p)) by (field; lra).
  replace (2 / d * (d * d)) with (2 * d) by (field; lra).
  lra.
Qed.

End PursuitGeometry.

(** ** Geometry of the trailer law *)

Section TrailerGeometry.

Import TruckState.

Variable vehiclePos : PosPoint.t.

Lemma atan2_scale (c y x : R) :
  0 < c -> Libm.atan2 (c * y) (c * x) = Libm.atan2 y x.
Proof.
  intros Hc. unfold Libm.atan2.
  assert (Hq : x <> 0 -> c * y / (c * x) = y / x) by (intros; field; lra).
  destruct (Rlt_dec 0 x) as [Hx | Hx].
  - destruct (Rlt_dec 0 (c * x)) as [_ | Hn]; [| exfalso; nra].
    rewrite Hq by lra. reflexivity.
  - destruct (Rlt_dec 0 (c * x)) as [Hp | _]; [exfalso; nra |].
    destruct (Rlt_dec x 0) as [Hx' | Hx'].
    + destruct (Rlt_dec (c * x) 0) as [_ | Hn]; [| exfalso; nra].
      rewrite Hq by lra.
      destruct (Rle_dec 0 y) as [Hy | Hy];
        destruct (Rle_dec 0 (c * y)) as [Hy' | Hy'];
        try reflexivity; exfalso; nra.
    + destruct (Rlt_dec (c * x) 0) as [Hp | _]; [exfalso; nra |].
      destruct (Rlt_dec 0 y) as [Hy | Hy].
      * destruct (Rlt_dec 0 (c * y)) as [_ | Hn]; [reflexivity | exfalso; nra].
      * destruct (Rlt_dec 0 (c * y)) as [Hp | _]; [exfalso; nra |].
        destruct (Rlt_dec y 0) as [Hy' | Hy'].
        -- destruct (Rlt_dec (c * y) 0) as [_ | Hn]; [reflexivity | exfalso; nra].
        -- destruct (Rlt_dec (c * y) 0) as [Hp | _]; [exfalso; nra | reflexivity].
Qed.

(** X20. With a trailer and a speed above zero the commanded curvature
    depends on the direction of the goal from the vehicle's position only,
    not on its distance: moving the goal along its ray by any factor
    [c > 0] leaves the curvature as it is. *)
Theorem trailer_forward_ignores_distance (s : t) (p : QPointF.t) (c : R) :
  mHasTrailer s = true ->
  0 < getSpeed s ->
  0 < c ->
  let q :=
    QPointF.mk
      (PosPoint.getX vehiclePos + c * (QPointF.x p - PosPoint.getX vehiclePos))
      (PosPoint.getY vehiclePos + c * (QPointF.y p - PosPoint.getY vehiclePos)) in
  getCurvatureToPointInVehicleFrame vehiclePos s q
  = getCurvatureToPointInVehicleFrame vehiclePos s p.
Proof.
  intros Htr Hv Hc q.
  unfold getCurvatureToPointInVehicleFrame. rewrite Htr.
  rewrite !(getCurvatureWithTrailer_forward vehiclePos s _ Hv).
  unfold desiredHitchForward, thetaErrForward, bearingFromVehicle, q.
  cbn [QPointF.x QPointF.y].
  replace (PosPoint.getY vehiclePos
           + c * (QPointF.y p - PosPoint.getY vehiclePos)
           - PosPoint.getY vehiclePos)
    with (c * (QPointF.y p - PosPoint.getY vehiclePos)) by ring.
  replace (PosPoint.getX vehiclePos
           + c * (QPointF.x p - PosPoint.getX vehiclePos)
           - PosPoint.getX vehiclePos)
    with (c * (QPointF.x p - PosPoint.getX vehiclePos)) by ring.
  now rewrite atan2_scale.
Qed.

Lemma atan_le (a b : R) : a <= b -> atan a <= atan b.
Proof.
  intros [Hlt | ->]; [left; now apply atan_increasing | right; reflexivity].
Qed.

Lemma atan_abs_le (a b : R) : Rabs a <= b -> Rabs (atan a) <= atan b.
Proof.
  intros H. apply Rabs_le_bounds in H. apply Rabs_le.
  rewrite <- atan_opp. split; apply atan_le; lra.
Qed.

(** X21. With a trailer the goal moves the commanded curvature by a bounded
    amount only.  Forward, the curvature stays within [atan (2 * 0.715)],
    which is below PI/2, of [m - sin m / 0.715] for the measured hitch angle
    [m]; in reverse, for a non-zero autopilot radius, within 2.5 times PI/2
    of [-2.5 * m - sin m / 0.715]. *)
Theorem trailer_curvature_bounded (s : t) (p : QPointF.t) :
  let m := getTrailerAngleRadians s in
  (0 < getSpeed s ->
   Rabs (getCurvatureWithTrailer vehiclePos s p - (m - sin m / l2))
   <= atan (2 * l2)
   /\ atan (2 * l2) < PI / 2)
  /\ (getSpeed s <= 0 ->
      getAutopilotRadius s <> 0 ->
      Rabs (getCurvatureWithTrailer vehiclePos s p
            - (- (5 / 2) * m - sin m / l2))
      < 5 / 2 * (PI / 2)).
Proof.
  intros m. split.
  - intros Hv. split; [| apply atan_bound].
    rewrite (getCurvatureWithTrailer_forward vehiclePos s p Hv). fold m.
    replace (1 * (m - desiredHitchForward vehiclePos p) - sin m / l2
             - (m - sin m / l2))
      with (- desiredHitchForward vehiclePos p) by ring.
    rewrite Rabs_Ropp. unfold desiredHitchForward.
    apply atan_abs_le.
    pose proof (SIN_bound (thetaErrForward vehiclePos p)) as Hsin.
    pose proof l2_pos as Hl.
    apply Rabs_le. nra.
  - intros Hv _.
    rewrite (getCurvatureWithTrailer_reverse vehiclePos s p) by lra. fold m.
    replace (- (5 / 2) * (m - desiredHitchReverse vehiclePos s p) - sin m / l2
             - (- (5 / 2) * m - sin m / l2))
      with (5 / 2 * desiredHitchReverse vehiclePos s p) by ring.
    rewrite Rabs_mult, (Rabs_pos_eq (5 / 2)) by lra.
    unfold desiredHitchReverse.
    match goal with
    | |- _ * Rabs (atan ?u) < _ => pose proof (atan_bound u) as Hb
    end.
    assert (Habs : forall u, - PI / 2 < u < PI / 2 -> Rabs u < PI / 2).
    { intros u Hu. apply Rabs_def1; lra. }
    apply Habs in Hb. lra.
Qed.

(** X22. With a trailer, a speed of zero or below and a non-zero autopilot
    radius, the commanded curvature depends on the direction of the goal
    from the trailer's position only, not on its distance from it: moving
    the goal along its ray from that position by any factor [c > 0] leaves
    the curvature as it is.  The trailer's position is the point one trailer
    wheelbase (0.715 m) from the vehicle's position, against the trailer's
    heading (the vehicle's yaw minus the measured hitch angle). *)
Theorem trailer_reverse_pivots_on_trailer (s : t) (p : QPointF.t) (c : R) :
  mHasTrailer s = true ->
  getSpeed s <= 0 ->
  getAutopilotRadius s <> 0 ->
  0 < c ->
  let heading :=
    PosPoint.getYaw vehiclePos * PI / 180 - getTrailerAngleRadians s in
  let tx := PosPoint.getX vehiclePos - l2 * cos heading in
  let ty := PosPoint.getY vehiclePos - l2 * sin heading in
  let q := QPointF.mk (tx + c * (QPointF.x p - tx)) (ty + c * (QPointF.y p - ty)) in
  getCurvatureToPointInVehicleFrame vehiclePos s q
  = getCurvatureToPointInVehicleFrame vehiclePos s p
  /\ (PosPoint.getX vehiclePos - tx) ^ 2 + (PosPoint.getY vehiclePos - ty) ^ 2
     = l2 ^ 2.
Proof.
  intros Htr Hv _ Hc heading tx ty q. split.
  - unfold getCurvatureToPointInVehicleFrame. rewrite Htr.
    rewrite !(getCurvatureWithTrailer_reverse vehiclePos s) by lra.
    unfold desiredHitchReverse, thetaErrReverse, bearingFromTrailer.
    change (trailerX vehiclePos (getTrailerAngleRadians s)) with tx.
    change (trailerY vehiclePos (getTrailerAngleRadians s)) with ty.
    unfold q. cbn [QPointF.x QPointF.y].
    replace (ty + c * (QPointF.y p - ty) - ty) with (c * (QPointF.y p - ty))
      by ring.
    replace (tx + c * (QPointF.x p - tx) - tx) with (c * (QPointF.x p - tx))
      by ring.
    now rewrite atan2_scale.
  - pose proof (sin2_cos2 heading) as H. unfold Rsqr in H.
    replace ((PosPoint.getX vehiclePos - tx) ^ 2
             + (PosPoint.getY vehiclePos - ty) ^ 2)
      with (l2 ^ 2 * (sin heading * sin heading + cos heading * cos heading))
      by (unfold tx, ty; ring).
    rewrite H. ring.
Qed.

End TrailerGeometry.

(** ** Concrete instances of the theorems above *)

Lemma inputRtcmData_reassembles_witness :
  (Rtcm.MAVLINK_MSG_GPS_RTCM_DATA_FIELD_DATA_LEN <= length Rtcm.twoFragments)%nat
  /\ Rtcm.numBytesProcessed
       (Rtcm.whileLoop 1 1 (length Rtcm.twoFragments) 0 Rtcm.twoFragments
                       (Rtcm.mkLoop 0 0 Rtcm.zeroed []))
     = length Rtcm.twoFragments.
Proof.
  assert (H : (Rtcm.MAVLINK_MSG_GPS_RTCM_DATA_FIELD_DATA_LEN
               <= length Rtcm.twoFragments)%nat).
  { unfold Rtcm.twoFragments, Rtcm.MAVLINK_MSG_GPS_RTCM_DATA_FIELD_DATA_LEN.
    rewrite repeat_length. lia. }
  split; [exact H |].
  exact (proj2 (inputRtcmData_reassembles 1 1 0 Rtcm.twoFragments) H).
Defined.

Lemma inputRtcmData_fragments_witness :
  (Rtcm.MAVLINK_MSG_GPS_RTCM_DATA_FIELD_DATA_LEN <= length Rtcm.twoFragments)%nat
  /\ length (fst (Rtcm.inputRtcmData 1 1 false 0 Rtcm.twoFragments))
     = ((length Rtcm.twoFragments + 179) / 180)%nat.
Proof.
  assert (H : (Rtcm.MAVLINK_MSG_GPS_RTCM_DATA_FIELD_DATA_LEN
               <= length Rtcm.twoFragments)%nat).
  { unfold Rtcm.twoFragments, Rtcm.MAVLINK_MSG_GPS_RTCM_DATA_FIELD_DATA_LEN.
    rewrite repeat_length. lia. }
  split; [exact H |].
  exact (proj1 (inputRtcmData_fragments 1 1 0 Rtcm.twoFragments H)).
Defined.

Lemma inputRtcmData_short_witness :
  (0 <= 7 < 256)%Z
  /\ (length Rtcm.fewBytes < 180)%nat
  /\ exists m,
       fst (Rtcm.inputRtcmData 1 1 false 7 Rtcm.fewBytes) = [m]
       /\ Rtcm.len (Rtcm.payload m) = Z.of_nat (length Rtcm.fewBytes).
Proof.
  assert (H1 : (0 <= 7 < 256)%Z) by lia.
  assert (H2 : (length Rtcm.fewBytes < 180)%nat).
  { unfold Rtcm.fewBytes. rewrite repeat_length. lia. }
  split; [exact H1 |]. split; [exact H2 |].
  destruct (inputRtcmData_short 1 1 7 Rtcm.fewBytes H1 H2) as [m [Hm [Hlen _]]].
  exists m. split; [exact Hm | exact Hlen].
Defined.

Lemma inputRtcmData_flags_witness :
  (0 <= 7 < 256)%Z
  /\ (180 <= length Rtcm.twoFragments <= 720)%nat
  /\ forall i m,
       nth_error (fst (Rtcm.inputRtcmData 1 1 false 7 Rtcm.twoFragments)) i = Some m ->
       Rtcm.flagFragmentId (Rtcm.flags (Rtcm.payload m)) = Z.of_nat i.
Proof.
  assert (H1 : (0 <= 7 < 256)%Z) by lia.
  assert (H2 : (180 <= length Rtcm.twoFragments <= 720)%nat).
  { unfold Rtcm.twoFragments. rewrite repeat_length. lia. }
  split; [exact H1 |]. split; [exact H2 |].
  intros i m Hi.
  exact (proj1 (proj2 (inputRtcmData_flags 1 1 7 Rtcm.twoFragments H1 H2 i m Hi))).
Defined.

Lemma inputRtcmData_fifth_fragment_witness :
  (0 <= 6 < 256)%Z
  /\ (720 < length Rtcm.fiveFragments)%nat
  /\ exists m,
       nth_error (fst (Rtcm.inputRtcmData 1 1 false 6 Rtcm.fiveFragments)) 4 = Some m
       /\ Rtcm.flagFragmentId (Rtcm.flags (Rtcm.payload m)) = 0%Z
       /\ Rtcm.flagSequenceId (Rtcm.flags (Rtcm.payload m)) = Z.lor (6 mod 32) 1.
Proof.
  assert (H1 : (0 <= 6 < 256)%Z) by lia.
  assert (H2 : (720 < length Rtcm.fiveFragments)%nat).
  { unfold Rtcm.fiveFragments. rewrite repeat_length. lia. }
  split; [exact H1 |]. split; [exact H2 |].
  destruct (inputRtcmData_fifth_fragment 1 1 6 Rtcm.fiveFragments H1 H2)
    as [m [Hm [_ [_ [Hid Hseq]]]]].
  exists m. split; [exact Hm |]. split; [exact Hid | exact Hseq].
Defined.

Lemma inputRtcmData_sequence_witness :
  (0 <= 255 < 256)%Z
  /\ (length Rtcm.twoFragments <= 720)%nat
  /\ snd (Rtcm.inputRtcmData 1 1 false 255 Rtcm.fewBytes) = ((255 + 1) mod 256)%Z.
Proof.
  assert (H1 : (0 <= 255 < 256)%Z) by lia.
  assert (H2 : (length Rtcm.twoFragments <= 720)%nat).
  { unfold Rtcm.twoFragments. rewrite repeat_length. lia. }
  split; [exact H1 |]. split; [exact H2 |].
  exact (proj1 (proj2 (inputRtcmData_sequence 1 1 255 Rtcm.fewBytes
                                              Rtcm.twoFragments H1 H2))).
Defined.

Lemma vesc_heard_matches_requested_witness :
  VESCMotorController.sentPackets VESCMotorController.atRest = []
  /\ VESCMotorController.absDefined
       (VESCMotorController.mLastRPMrequest VESCMotorController.atRest)
  /\ Forall VESCMotorController.eventDefined
            [VESCMotorController.RequestRPM 20;
             VESCMotorController.CheckCurrentTimeout;
             VESCMotorController.RequestRPM 1000;
             VESCMotorController.HeartbeatTimeout]
  /\ VESCMotorController.lastRPMSent
       (VESCMotorController.sentPackets
          (VESCMotorController.handleAll 50 0 0
             [VESCMotorController.RequestRPM 20;
              VESCMotorController.CheckCurrentTimeout;
              VESCMotorController.RequestRPM 1000;
              VESCMotorController.HeartbeatTimeout]
             VESCMotorController.atRest)) = Some 1000%Z.
Proof.
  assert (H1 : VESCMotorController.sentPackets VESCMotorController.atRest = [])
    by reflexivity.
  assert (H2 : VESCMotorController.absDefined
                 (VESCMotorController.mLastRPMrequest VESCMotorController.atRest)).
  { unfold VESCMotorController.absDefined, Cast.INT32_MIN, Cast.INT32_MAX.
    simpl. lia. }
  assert (H3 : Forall VESCMotorController.eventDefined
                      [VESCMotorController.RequestRPM 20;
                       VESCMotorController.CheckCurrentTimeout;
                       VESCMotorController.RequestRPM 1000;
                       VESCMotorController.HeartbeatTimeout]).
  { repeat constructor;
      unfold VESCMotorController.absDefined, Cast.INT32_MIN, Cast.INT32_MAX; lia. }
  split; [exact H1 |]. split; [exact H2 |]. split; [exact H3 |].
  exact (proj1 (proj2 (proj1 (vesc_heard_matches_requested 50 0 0 _ _ H1 H2 H3)
                             1000%Z eq_refl))
               eq_refl).
Defined.

Lemma vesc_repeated_stop_requests_witness :
  VESCMotorController.consideredStop 50
    (VESCMotorController.mLastRPMrequest VESCMotorController.running) = false
  /\ VESCMotorController.consideredStop 50 20 = true
  /\ Forall (fun rpm => VESCMotorController.consideredStop 50 rpm = true) [10; 0]%Z
  /\ VESCMotorController.absDefined
       (VESCMotorController.mLastRPMrequest VESCMotorController.running)
  /\ Forall VESCMotorController.absDefined [20; 10; 0]%Z
  /\ VESCMotorController.sentPackets
       (VESCMotorController.handleAll 50 0 0
          (map VESCMotorController.RequestRPM [20; 10; 0]%Z)
          VESCMotorController.running)
     = [VESCMotorController.rpmPacket 20].
Proof.
  assert (H1 : VESCMotorController.consideredStop 50
                 (VESCMotorController.mLastRPMrequest VESCMotorController.running)
               = false) by reflexivity.
  assert (H2 : VESCMotorController.consideredStop 50 20 = true) by reflexivity.
  assert (H3 : Forall (fun rpm => VESCMotorController.consideredStop 50 rpm = true)
                      [10; 0]%Z) by (repeat constructor).
  assert (H4 : VESCMotorController.absDefined
                 (VESCMotorController.mLastRPMrequest VESCMotorController.running)).
  { unfold VESCMotorController.absDefined, Cast.INT32_MIN, Cast.INT32_MAX.
    simpl. lia. }
  assert (H5 : Forall VESCMotorController.absDefined [20; 10; 0]%Z).
  { repeat constructor;
      unfold VESCMotorController.absDefined, Cast.INT32_MIN, Cast.INT32_MAX; lia. }
  split; [exact H1 |]. split; [exact H2 |]. split; [exact H3 |].
  split; [exact H4 |]. split; [exact H5 |].
  exact (proj1 (vesc_repeated_stop_requests 50 0 0 20 [10; 0]%Z
                  VESCMotorController.running H1 H2 H3 H4 H5)).
Defined.

Lemma vesc_check_current_timer_witness :
  VESCMotorController.setCurrentToZeroNextTime VESCMotorController.atRest = false
  /\ VESCMotorController.absDefined
       (VESCMotorController.mLastRPMrequest VESCMotorController.atRest)
  /\ VESCMotorController.consideredStop 50
       (VESCMotorController.mLastRPMrequest VESCMotorController.atRest) = true
  /\ VESCMotorController.handleAll 50 0 0
       (repeat VESCMotorController.CheckCurrentTimeout (2 * 3))
       VESCMotorController.atRest
     = VESCMotorController.mk 0 false false
         ([] ++ repeat VESCMotorController.zeroCurrentPacket 3).
Proof.
  assert (H1 : VESCMotorController.setCurrentToZeroNextTime
                 VESCMotorController.atRest = false) by reflexivity.
  assert (H2 : VESCMotorController.absDefined
                 (VESCMotorController.mLastRPMrequest VESCMotorController.atRest)).
  { unfold VESCMotorController.absDefined, Cast.INT32_MIN, Cast.INT32_MAX.
    simpl. lia. }
  assert (H3 : VESCMotorController.consideredStop 50
                 (VESCMotorController.mLastRPMrequest VESCMotorController.atRest)
               = true) by reflexivity.
  split; [exact H1 |]. split; [exact H2 |]. split; [exact H3 |].
  exact (proj1 (vesc_check_current_timer 50 0 0 3 0
                  VESCMotorController.atRest H1 H2) H3).
Defined.

Lemma vesc_zero_current_after_start_witness :
  VESCMotorController.consideredStop 50
    (VESCMotorController.mLastRPMrequest VESCMotorController.atRest) = true
  /\ VESCMotorController.setCurrentToZeroNextTime VESCMotorController.atRest = false
  /\ VESCMotorController.consideredStop 50 1000 = false
  /\ VESCMotorController.absDefined
       (VESCMotorController.mLastRPMrequest VESCMotorController.atRest)
  /\ VESCMotorController.absDefined 1000
  /\ VESCMotorController.sentPackets
       (VESCMotorController.handleAll 50 0 0
          [VESCMotorController.CheckCurrentTimeout;
           VESCMotorController.RequestRPM 1000;
           VESCMotorController.CheckCurrentTimeout]
          VESCMotorController.atRest)
     = [] ++ [VESCMotorController.rpmPacket 1000;
              VESCMotorController.zeroCurrentPacket].
Proof.
  assert (H1 : VESCMotorController.consideredStop 50
                 (VESCMotorController.mLastRPMrequest VESCMotorController.atRest)
               = true) by reflexivity.
  assert (H2 : VESCMotorController.setCurrentToZeroNextTime
                 VESCMotorController.atRest = false) by reflexivity.
  assert (H3 : VESCMotorController.consideredStop 50 1000 = false) by reflexivity.
  assert (H4 : VESCMotorController.absDefined
                 (VESCMotorController.mLastRPMrequest VESCMotorController.atRest)).
  { unfold VESCMotorController.absDefined, Cast.INT32_MIN, Cast.INT32_MAX.
    simpl. lia. }
  assert (H5 : VESCMotorController.absDefined 1000).
  { unfold VESCMotorController.absDefined, Cast.INT32_MIN, Cast.INT32_MAX. lia. }
  split; [exact H1 |]. split; [exact H2 |]. split; [exact H3 |].
  split; [exact H4 |]. split; [exact H5 |].
  exact (proj1 (vesc_zero_current_after_start 50 0 0 1000
                  VESCMotorController.atRest H1 H2 H3 H4 H5)).
Defined.

Lemma requestGotoLlh_reposition_witness :
  Rabs (MavsdkVehicleConnection.latitude MavsdkVehicleConnection.requestedHome) <= 90
  /\ Rabs (MavsdkVehicleConnection.longitude MavsdkVehicleConnection.requestedHome)
     <= 180
  /\ Cast.accurateAt Rmult
       (MavsdkVehicleConnection.latitude MavsdkVehicleConnection.requestedHome)
       10000000
  /\ Cast.accurateAt Rmult
       (MavsdkVehicleConnection.longitude MavsdkVehicleConnection.requestedHome)
       10000000
  /\ exists ComInt,
       MavsdkRequests.requestGotoLlh Rmult MavsdkVehicleConnection.roverConnection
                                     MavsdkVehicleConnection.requestedHome false
       = MavsdkRequests.Returned [MavsdkRequests.send_command_int ComInt]
       /\ Rabs (IZR (MavsdkRequests.x ComInt) - 58 * 10000000) <= / 2.
Proof.
  assert (H1 : Rabs (MavsdkVehicleConnection.latitude
                       MavsdkVehicleConnection.requestedHome) <= 90).
  { simpl. rewrite Rabs_pos_eq; lra. }
  assert (H2 : Rabs (MavsdkVehicleConnection.longitude
                       MavsdkVehicleConnection.requestedHome) <= 180).
  { simpl. rewrite Rabs_pos_eq; lra. }
  assert (Hexact : forall a b, Cast.accurateAt Rmult a b).
  { intros a b. unfold Cast.accurateAt.
    replace (a * b - a * b) with 0 by ring. rewrite Rabs_R0.
    pose proof (Rabs_pos (a * b)). lra. }
  split; [exact H1 |]. split; [exact H2 |].
  split; [apply Hexact |]. split; [apply Hexact |].
  destruct (proj1 (requestGotoLlh_reposition Rmult
                     MavsdkVehicleConnection.roverConnection
                     MavsdkVehicleConnection.requestedHome H1 H2
                     (Hexact _ _) (Hexact _ _)))
    as [ComInt [Hsent [_ [Hx _]]]].
  exists ComInt. split; [exact Hsent | exact Hx].
Defined.

Lemma sendSetGpsOriginLlh_truncates_witness :
  Rabs (MavsdkVehicleConnection.latitude MavsdkVehicleConnection.requestedHome) <= 90
  /\ Rabs (MavsdkVehicleConnection.longitude MavsdkVehicleConnection.requestedHome)
     <= 180
  /\ Rabs (MavsdkVehicleConnection.height MavsdkVehicleConnection.requestedHome)
     <= 2000000
  /\ Cast.accurateAt Rmult
       (MavsdkVehicleConnection.latitude MavsdkVehicleConnection.requestedHome)
       10000000
  /\ Cast.accurateAt Rmult
       (MavsdkVehicleConnection.longitude MavsdkVehicleConnection.requestedHome)
       10000000
  /\ Cast.accurateAt Rmult
       (MavsdkVehicleConnection.height MavsdkVehicleConnection.requestedHome)
       1000
  /\ exists msg,
       MavsdkRequests.sendSetGpsOriginLlh Rmult false
         MavsdkVehicleConnection.roverConnection
         MavsdkVehicleConnection.requestedHome
       = MavsdkRequests.Returned [msg]
       /\ Rabs (IZR (MavsdkRequests.altitude msg) - 5 * 1000) < 1.
Proof.
  assert (H1 : Rabs (MavsdkVehicleConnection.latitude
                       MavsdkVehicleConnection.requestedHome) <= 90).
  { simpl. rewrite Rabs_pos_eq; lra. }
  assert (H2 : Rabs (MavsdkVehicleConnection.longitude
                       MavsdkVehicleConnection.requestedHome) <= 180).
  { simpl. rewrite Rabs_pos_eq; lra. }
  assert (H3 : Rabs (MavsdkVehicleConnection.height
                       MavsdkVehicleConnection.requestedHome) <= 2000000).
  { simpl. rewrite Rabs_pos_eq; lra. }
  assert (Hexact : forall a b, Cast.accurateAt Rmult a b).
  { intros a b. unfold Cast.accurateAt.
    replace (a * b - a * b) with 0 by ring. rewrite Rabs_R0.
    pose proof (Rabs_pos (a * b)). lra. }
  split; [exact H1 |]. split; [exact H2 |]. split; [exact H3 |].
  split; [apply Hexact |]. split; [apply Hexact |]. split; [apply Hexact |].
  destruct (proj1 (sendSetGpsOriginLlh_truncates Rmult
                     MavsdkVehicleConnection.roverConnection
                     MavsdkVehicleConnection.requestedHome H1 H2 H3
                     (Hexact _ _) (Hexact _ _) (Hexact _ _)))
    as [msg [Hsent [_ [_ [_ [_ [_ [_ [Halt _]]]]]]]]].
  exists msg. split; [exact Hsent | exact Halt].
Defined.


Lemma appendToRouteOnVehicle_other_types_witness :
  MavsdkRequests.MAV_TYPE_QUADROTOR <> MavsdkRequests.MAV_TYPE_GROUND_ROVER
  /\ MavsdkRequests.shortRoute <> []
  /\ MavsdkRequests.appendToRouteOnVehicle MavsdkRequests.MAV_TYPE_QUADROTOR
                                           MavsdkRequests.shortRoute
     = MavsdkRequests.Thrown.
Proof.
  assert (H1 : MavsdkRequests.MAV_TYPE_QUADROTOR
               <> MavsdkRequests.MAV_TYPE_GROUND_ROVER) by discriminate.
  assert (H2 : MavsdkRequests.shortRoute <> []) by discriminate.
  split; [exact H1 |]. split; [exact H2 |].
  exact (proj1 (appendToRouteOnVehicle_other_types
                  MavsdkRequests.MAV_TYPE_QUADROTOR MavsdkRequests.shortRoute)
               H1 H2).
Defined.

Lemma setHomeLlh_frame_witness :
  MavsdkVehicleConnection.setHomeLlh
    MavsdkVehicleConnection.offsetFromReference
    MavsdkVehicleConnection.acceptingLink
    MavsdkVehicleConnection.roverConnection
    MavsdkVehicleConnection.requestedHome
  = Some (MavsdkVehicleConnection.mk
            (MavsdkVehicleConnection.mk_llh 57 12 0)
            (Some (MavsdkVehicleConnection.mkVehicleState
                     (PosPoint.mk (13 - 12) (58 - 57) (5 - 0) 0) false 1))
            1%Z 1%Z)
  /\ MavsdkVehicleConnection.mEnuReference
       (MavsdkVehicleConnection.mk
          (MavsdkVehicleConnection.mk_llh 57 12 0)
          (Some (MavsdkVehicleConnection.mkVehicleState
                   (PosPoint.mk (13 - 12) (58 - 57) (5 - 0) 0) false 1))
          1%Z 1%Z)
     = MavsdkVehicleConnection.mEnuReference MavsdkVehicleConnection.roverConnection.
Proof.
  assert (H : MavsdkVehicleConnection.setHomeLlh
                MavsdkVehicleConnection.offsetFromReference
                MavsdkVehicleConnection.acceptingLink
                MavsdkVehicleConnection.roverConnection
                MavsdkVehicleConnection.requestedHome
              = Some (MavsdkVehicleConnection.mk
                        (MavsdkVehicleConnection.mk_llh 57 12 0)
                        (Some (MavsdkVehicleConnection.mkVehicleState
                                 (PosPoint.mk (13 - 12) (58 - 57) (5 - 0) 0)
                                 false 1))
                        1%Z 1%Z)) by reflexivity.
  split; [exact H |].
  exact (proj1 (proj1 (setHomeLlh_frame
                         MavsdkVehicleConnection.offsetFromReference
                         MavsdkVehicleConnection.acceptingLink
                         MavsdkVehicleConnection.roverConnection
                         MavsdkVehicleConnection.requestedHome) _ H)).
Defined.

Lemma pure_pursuit_sign_witness :
  TruckState.mHasTrailer TruckState.soloTruck = false
  /\ 0 < QPointF.y TruckState.goalLeft
  /\ TruckState.getCurvatureToPointInVehicleFrame PosPoint.origin
       TruckState.soloTruck TruckState.goalLeft < 0.
Proof.
  assert (H1 : TruckState.mHasTrailer TruckState.soloTruck = false) by reflexivity.
  assert (H2 : 0 < QPointF.y TruckState.goalLeft) by (simpl; lra).
  split; [exact H1 |]. split; [exact H2 |].
  exact (proj1 (pure_pursuit_sign PosPoint.origin TruckState.soloTruck
                                  TruckState.goalLeft H1) H2).
Defined.

Lemma pure_pursuit_symmetry_witness :
  TruckState.mHasTrailer TruckState.soloTruck = false
  /\ (QPointF.x TruckState.goalLeft <> 0 \/ QPointF.y TruckState.goalLeft <> 0)
  /\ 2 <> 0
  /\ TruckState.getCurvatureToPointInVehicleFrame PosPoint.origin
       TruckState.soloTruck
       (QPointF.mk (2 * QPointF.x TruckState.goalLeft)
                   (2 * QPointF.y TruckState.goalLeft))
     = TruckState.getCurvatureToPointInVehicleFrame PosPoint.origin
         TruckState.soloTruck TruckState.goalLeft / 2.
Proof.
  assert (H1 : TruckState.mHasTrailer TruckState.soloTruck = false) by reflexivity.
  assert (H2 : QPointF.x TruckState.goalLeft <> 0
               \/ QPointF.y TruckState.goalLeft <> 0) by (left; simpl; lra).
  assert (H3 : 2 <> 0) by lra.
  split; [exact H1 |]. split; [exact H2 |]. split; [exact H3 |].
  exact (proj2 (pure_pursuit_symmetry PosPoint.origin TruckState.soloTruck
                                      TruckState.goalLeft 2 H1 H2 H3)).
Defined.

Lemma pure_pursuit_circle_witness :
  TruckState.mHasTrailer TruckState.soloTruck = false
  /\ QPointF.y TruckState.goalLeft <> 0
  /\ TruckState.getCurvatureToPointInVehicleFrame PosPoint.origin
       TruckState.soloTruck TruckState.goalLeft <> 0.
Proof.
  assert (H1 : TruckState.mHasTrailer TruckState.soloTruck = false) by reflexivity.
  assert (H2 : QPointF.y TruckState.goalLeft <> 0) by (simpl; lra).
  split; [exact H1 |]. split; [exact H2 |].
  exact (proj1 (pure_pursuit_circle PosPoint.origin TruckState.soloTruck
                                    TruckState.goalLeft H1 H2)).
Defined.

Lemma pure_pursuit_bound_witness :
  TruckState.mHasTrailer TruckState.soloTruck = false
  /\ (QPointF.x TruckState.goalLeft <> 0 \/ QPointF.y TruckState.goalLeft <> 0)
  /\ Rabs (TruckState.getCurvatureToPointInVehicleFrame PosPoint.origin
             TruckState.soloTruck TruckState.goalLeft)
     <= 2 / sqrt (TruckState.distanceSquared TruckState.goalLeft).
Proof.
  assert (H1 : TruckState.mHasTrailer TruckState.soloTruck = false) by reflexivity.
  assert (H2 : QPointF.x TruckState.goalLeft <> 0
               \/ QPointF.y TruckState.goalLeft <> 0) by (left; simpl; lra).
  split; [exact H1 |]. split; [exact H2 |].
  exact (pure_pursuit_bound PosPoint.origin TruckState.soloTruck
                            TruckState.goalLeft H1 H2).
Defined.

Lemma trailer_forward_ignores_distance_witness :
  TruckState.mHasTrailer TruckState.hitchedTruck = true
  /\ 0 < TruckState.getSpeed TruckState.hitchedTruck
  /\ 0 < 3
  /\ TruckState.getCurvatureToPointInVehicleFrame PosPoint.origin
       TruckState.hitchedTruck
       (QPointF.mk
          (PosPoint.getX PosPoint.origin
           + 3 * (QPointF.x TruckState.goalLeft - PosPoint.getX PosPoint.origin))
          (PosPoint.getY PosPoint.origin
           + 3 * (QPointF.y TruckState.goalLeft - PosPoint.getY PosPoint.origin)))
     = TruckState.getCurvatureToPointInVehicleFrame PosPoint.origin
         TruckState.hitchedTruck TruckState.goalLeft.
Proof.
  assert (H1 : TruckState.mHasTrailer TruckState.hitchedTruck = true) by reflexivity.
  assert (H2 : 0 < TruckState.getSpeed TruckState.hitchedTruck) by (simpl; lra).
  assert (H3 : 0 < 3) by lra.
  split; [exact H1 |]. split; [exact H2 |]. split; [exact H3 |].
  exact (trailer_forward_ignores_distance PosPoint.origin TruckState.hitchedTruck
                                          TruckState.goalLeft 3 H1 H2 H3).
Defined.

Lemma trailer_curvature_bounded_witness :
  TruckState.getSpeed TruckState.reversingTruck <= 0
  /\ TruckState.getAutopilotRadius TruckState.reversingTruck <> 0
  /\ Rabs (TruckState.getCurvatureWithTrailer PosPoint.origin
             TruckState.reversingTruck TruckState.goalLeft
           - (- (5 / 2) * (PI / 6) - sin (PI / 6) / TruckState.l2))
     < 5 / 2 * (PI / 2).
Proof.
  assert (H1 : TruckState.getSpeed TruckState.reversingTruck <= 0) by (simpl; lra).
  assert (H2 : TruckState.getAutopilotRadius TruckState.reversingTruck <> 0)
    by (simpl; lra).
  split; [exact H1 |]. split; [exact H2 |].
  exact (proj2 (trailer_curvature_bounded PosPoint.origin TruckState.reversingTruck
                                          TruckState.goalLeft) H1 H2).
Defined.

Lemma trailer_reverse_pivots_on_trailer_witness :
  TruckState.mHasTrailer TruckState.standingTruck = true
  /\ TruckState.getSpeed TruckState.standingTruck <= 0
  /\ TruckState.getAutopilotRadius TruckState.standingTruck <> 0
  /\ 0 < 2
  /\ TruckState.getCurvatureToPointInVehicleFrame PosPoint.origin
       TruckState.standingTruck
       (QPointF.mk
          (TruckState.trailerX PosPoint.origin (PI / 6)
           + 2 * (QPointF.x TruckState.goalLeft
                  - TruckState.trailerX PosPoint.origin (PI / 6)))
          (TruckState.trailerY PosPoint.origin (PI / 6)
           + 2 * (QPointF.y TruckState.goalLeft
                  - TruckState.trailerY PosPoint.origin (PI / 6))))
     = TruckState.getCurvatureToPointInVehicleFrame PosPoint.origin
         TruckState.standingTruck TruckState.goalLeft.
Proof.
  assert (H1 : TruckState.mHasTrailer TruckState.standingTruck = true)
    by reflexivity.
  assert (H2 : TruckState.getSpeed TruckState.standingTruck <= 0) by (simpl; lra).
  assert (H3 : TruckState.getAutopilotRadius TruckState.standingTruck <> 0)
    by (simpl; lra).
  assert (H4 : 0 < 2) by lra.
  split; [exact H1 |]. split; [exact H2 |]. split; [exact H3 |].
  split; [exact H4 |].
  exact (proj1 (trailer_reverse_pivots_on_trailer PosPoint.origin
                  TruckState.standingTruck TruckState.goalLeft 2 H1 H2 H3 H4)).
Defined.
